(** * synapse.logging._remote: a buffered log handler writing to a TCP target

    A shallow embedding of [LogProducer] and [RemoteHandler] from
    [synapse/logging/_remote.py].  Python objects become records, attribute
    assignment becomes explicit state passing over one [World] value, and
    exceptions are an explicit result type, so that [try]/[except] blocks keep
    their meaning.  The Twisted objects the handler talks to (the client
    service, its Deferreds, the transports) are external; they are modelled
    only as far as the handler observes them. *)

From Stdlib Require Import ZArith NArith List String Ascii Bool Arith Lia.
From Stdlib Require Import Strings.Byte DecimalString.
Import ListNotations.
Open Scope Z_scope.

(** ** Python values *)

(** A Python [str] is a sequence of Unicode code points. *)
Definition pystr := list N.

(** A Python [bytes] object. *)
Definition bytes := list byte.

Definition pystr_of_string (s : string) : pystr :=
  map N_of_ascii (list_ascii_of_string s).

Inductive exn : Type :=
| IndexError
| AssertionError
| ValueError
| UnboundLocalError
| UnicodeEncodeError
| FormatError
| WriteError
| ConnectError
| AttributeError.

Inductive result (A : Type) : Type :=
| Ok (a : A)
| Raise (e : exn).
Arguments Ok {A} a.
Arguments Raise {A} e.

(** The numeric levels of the standard [logging] module. *)
Module logging.
Definition NOTSET : Z := 0.
Definition DEBUG : Z := 10.
Definition INFO : Z := 20.
Definition WARNING : Z := 30.
Definition ERROR : Z := 40.
Definition CRITICAL : Z := 50.

(** [logging.LogRecord]: [levelno] is a plain integer (custom levels are
    allowed), [msg] is the payload handed to the formatter. *)
Record LogRecord : Type := mkLogRecord {
  levelno : Z;
  msg : pystr;
}.

(** The five named severities. *)
Definition standard_level (l : Z) : Prop :=
  l = DEBUG \/ l = INFO \/ l = WARNING \/ l = ERROR \/ l = CRITICAL.
End logging.
Import logging.

(** ** [collections.deque] *)

Definition deque := list LogRecord.

Definition len {A : Type} (d : list A) : Z := Z.of_nat (List.length d).

(** [d.popleft()] raises [IndexError] on an empty deque. *)
Definition popleft (d : deque) : result (LogRecord * deque) :=
  match d with
  | [] => Raise IndexError
  | x :: d' => Ok (x, d')
  end.

(** [d.pop()] removes the rightmost element, [IndexError] when empty. *)
Fixpoint pop (d : deque) : result (LogRecord * deque) :=
  match d with
  | [] => Raise IndexError
  | [x] => Ok (x, [])
  | y :: d' =>
      match pop d' with
      | Ok (x, d'') => Ok (x, y :: d'')
      | Raise e => Raise e
      end
  end.

(** ** [str.encode("utf8")] *)

Definition byte_of_N (n : N) : byte :=
  match Byte.of_N (n mod 256) with
  | Some b => b
  | None => "000"%byte
  end.

(** One code point, strict error handling: lone surrogates are refused. *)
Definition utf8_encode_char (c : N) : option bytes :=
  (if c <? 128 then Some [byte_of_N c]
   else if c <? 2048 then
     Some [byte_of_N (192 + c / 64); byte_of_N (128 + c mod 64)]
   else if (55296 <=? c) && (c <=? 57343) then None
   else if c <? 65536 then
     Some [byte_of_N (224 + c / 4096); byte_of_N (128 + (c / 64) mod 64);
           byte_of_N (128 + c mod 64)]
   else if c <? 1114112 then
     Some [byte_of_N (240 + c / 262144); byte_of_N (128 + (c / 4096) mod 64);
           byte_of_N (128 + (c / 64) mod 64); byte_of_N (128 + c mod 64)]
   else None)%N.

Fixpoint utf8_encode (s : pystr) : option bytes :=
  match s with
  | [] => Some []
  | c :: s' =>
      match utf8_encode_char c, utf8_encode s' with
      | Some b, Some bs => Some (b ++ bs)
      | _, _ => None
      end
  end.

Definition encode_utf8 (s : pystr) : result bytes :=
  match utf8_encode s with
  | Some b => Ok b
  | None => Raise UnicodeEncodeError
  end.

(** [b"\n"] *)
Definition newline : bytes := ["010"%byte].

(** ** Twisted objects, as far as the handler observes them *)

Inductive Reactor : Type :=
| GlobalReactor
| InjectedReactor (id : nat).

Inductive Endpoint : Type :=
| TCP4ClientEndpoint (reactor : Reactor) (host : string) (port : Z)
| TCP6ClientEndpoint (reactor : Reactor) (host : string) (port : Z)
| HostnameEndpoint (reactor : Reactor) (host : string) (port : Z).

(** Modelled from the spec: the reactions of the transport handle of
    section 6 to one [write(bytes)] call.  It takes the bytes, or takes them
    and tells the registered producer to pause before it returns (the
    write-readiness signal of section 4.3), or fails (the WriteError of
    section 7). *)
Inductive WriteAction : Type :=
| Accept
| AcceptThenPause
| Refuse.

(** Modelled from the spec: the transport handle of section 6, in the code
    a Twisted [ITransport].  [connected] is its connected signal, [written]
    logs the argument of every successful [write] call, one entry per call,
    and [script] fixes the reaction to the coming calls (an exhausted script
    accepts). *)
Record Transport : Type := mkTransport {
  connected : bool;
  written : list bytes;
  script : list WriteAction;
}.

(** Modelled from the spec: the pending result of a connection attempt
    (section 5), in the code a Twisted Deferred: still waiting for its
    result, or already called. *)
Inductive Deferred : Type :=
| Waiting
| Called.

(** Modelled from the spec: the connection manager of section 4.2, which in
    the code is Twisted's [ClientService].  While it has no connection it
    keeps trying and counts the Deferreds handed out by [whenConnected] that
    are still waiting; once connected it holds the live transport. *)
Inductive ConnState : Type :=
| Connecting (awaiting : nat)
| Connected (tid : nat).

Record ClientService : Type := mkClientService {
  endpoint : Endpoint;
  clock : Reactor;
  conn : ConnState;
}.

(** ** [LogProducer] *)

(** [transport] is a reference into the store of transports; [_handler] is
    the back-reference to the owning handler ([false] is [None]). *)
Record LogProducer : Type := mkLogProducer {
  transport : nat;
  _handler : bool;
  _paused : bool;
}.

(** ** [RemoteHandler] and its surroundings *)

(** The attributes of the one [RemoteHandler], followed by what lives outside
    of it: the transports created so far and the tracebacks printed to
    [sys.__stderr__].  [_logger] collects the messages passed to
    [Logger.failure]. *)
Record World : Type := mkWorld {
  host : string;
  port : Z;
  maximum_buffer : Z;
  formatter : LogRecord -> result pystr;
  _buffer : deque;
  _connection_waiter : option Deferred;
  _logger : list string;
  _producer : option LogProducer;
  _service : ClientService;
  transports : list Transport;
  stderr : list exn;
}.

Definition set_buffer (b : deque) (w : World) : World :=
  mkWorld (host w) (port w) (maximum_buffer w) (formatter w) b
          (_connection_waiter w) (_logger w) (_producer w) (_service w)
          (transports w) (stderr w).

Definition set_connection_waiter (d : option Deferred) (w : World) : World :=
  mkWorld (host w) (port w) (maximum_buffer w) (formatter w) (_buffer w)
          d (_logger w) (_producer w) (_service w) (transports w) (stderr w).

Definition set_logger (l : list string) (w : World) : World :=
  mkWorld (host w) (port w) (maximum_buffer w) (formatter w) (_buffer w)
          (_connection_waiter w) l (_producer w) (_service w) (transports w)
          (stderr w).

Definition set_producer (p : option LogProducer) (w : World) : World :=
  mkWorld (host w) (port w) (maximum_buffer w) (formatter w) (_buffer w)
          (_connection_waiter w) (_logger w) p (_service w) (transports w)
          (stderr w).

Definition set_conn (c : ConnState) (w : World) : World :=
  mkWorld (host w) (port w) (maximum_buffer w) (formatter w) (_buffer w)
          (_connection_waiter w) (_logger w) (_producer w)
          (mkClientService (endpoint (_service w)) (clock (_service w)) c)
          (transports w) (stderr w).

Definition set_transports (ts : list Transport) (w : World) : World :=
  mkWorld (host w) (port w) (maximum_buffer w) (formatter w) (_buffer w)
          (_connection_waiter w) (_logger w) (_producer w) (_service w) ts
          (stderr w).

Definition set_stderr (e : list exn) (w : World) : World :=
  mkWorld (host w) (port w) (maximum_buffer w) (formatter w) (_buffer w)
          (_connection_waiter w) (_logger w) (_producer w) (_service w)
          (transports w) e.

(** ** Statements that mutate the world and may raise *)

Definition M (A : Type) : Type := World -> result A * World.

Definition ret {A : Type} (a : A) : M A := fun w => (Ok a, w).

Definition raise {A : Type} (e : exn) : M A := fun w => (Raise e, w).

Definition bind {A B : Type} (m : M A) (f : A -> M B) : M B :=
  fun w =>
    match m w with
    | (Ok a, w') => f a w'
    | (Raise e, w') => (Raise e, w')
    end.

(** [try: m except Exception: h] *)
Definition try_except {A : Type} (m : M A) (h : exn -> M A) : M A :=
  fun w =>
    match m w with
    | (Ok a, w') => (Ok a, w')
    | (Raise e, w') => h e w'
    end.

Definition lift {A : Type} (r : result A) : M A := fun w => (r, w).

Definition modify (f : World -> World) : M unit := fun w => (Ok tt, f w).

Definition gets {A : Type} (f : World -> A) : M A := fun w => (Ok (f w), w).

Declare Scope py_scope.
Delimit Scope py_scope with py.
Notation "x <- m ;; k" := (bind m (fun x => k))
  (at level 61, m at next level, right associativity) : py_scope.
Notation "m ;; k" := (bind m (fun _ => k))
  (at level 61, right associativity) : py_scope.
Notation "' pat <- m ;; k" := (bind m (fun x => match x with pat => k end))
  (at level 61, pat pattern, m at next level, right associativity) : py_scope.
Open Scope py_scope.

(** ** [RemoteHandler._handle_pressure] *)

(** [for i in range(n): self._buffer.append(old_buffer.popleft())] *)
Fixpoint move_head (n : nat) (old_buffer : deque) : M deque :=
  match n with
  | O => ret old_buffer
  | S n' =>
      '(x, old_buffer') <- lift (popleft old_buffer) ;;
      modify (fun w => set_buffer (_buffer w ++ [x]) w) ;;
      move_head n' old_buffer'
  end.

(** [for i in range(n): end_buffer.append(old_buffer.pop())] *)
Fixpoint move_tail (n : nat) (old_buffer : deque) (end_buffer : list LogRecord)
  : M (deque * list LogRecord) :=
  match n with
  | O => ret (old_buffer, end_buffer)
  | S n' =>
      '(x, old_buffer') <- lift (pop old_buffer) ;;
      move_tail n' old_buffer' (end_buffer ++ [x])
  end.

(** [math.floor(m / 2)] for an integer [m]: the quotient rounded towards
    minus infinity (the float division is exact far beyond any buffer size
    that fits in memory). *)
Definition floor_half (m : Z) : Z := m / 2.

(** [range(k)] runs [k] times, and not at all for [k <= 0]. *)
Definition range_count (k : Z) : nat := Z.to_nat k.

(** The last stage of [_handle_pressure], entered with the buffer [b] still
    longer than the maximum [m]. *)
Definition cut_the_middle (m : Z) (b : deque) : M unit :=
  let buffer_split := floor_half m in
  let old_buffer := b in
  modify (set_buffer []) ;;
  old_buffer <- move_head (range_count buffer_split) old_buffer ;;
  '(old_buffer, end_buffer) <- move_tail (range_count buffer_split) old_buffer [] ;;
  modify (fun w => set_buffer (_buffer w ++ rev end_buffer) w).

Definition _handle_pressure : M unit :=
  b <- gets _buffer ;;
  m <- gets maximum_buffer ;;
  if len b <=? m then ret tt else
  (* Strip out DEBUGs *)
  modify (set_buffer (filter (fun record => levelno record >? DEBUG) b)) ;;
  b <- gets _buffer ;;
  if len b <=? m then ret tt else
  (* Strip out INFOs *)
  modify (set_buffer (filter (fun record => levelno record >? INFO) b)) ;;
  b <- gets _buffer ;;
  if len b <=? m then ret tt else
  (* Cut the middle entries out *)
  cut_the_middle m b.

(** ** Transports *)

Fixpoint replace_nth {A : Type} (n : nat) (x : A) (l : list A) : list A :=
  match l, n with
  | [], _ => []
  | _ :: l', O => x :: l'
  | y :: l', S n' => y :: replace_nth n' x l'
  end.

(** One [write] call seen from the transport: the outcome, whether the
    transport asks its producer to pause, and the transport afterwards. *)
Definition write (data : bytes) (t : Transport) : result unit * bool * Transport :=
  match script t with
  | [] => (Ok tt, false, mkTransport (connected t) (written t ++ [data]) [])
  | Accept :: s => (Ok tt, false, mkTransport (connected t) (written t ++ [data]) s)
  | AcceptThenPause :: s =>
      (Ok tt, true, mkTransport (connected t) (written t ++ [data]) s)
  | Refuse :: s => (Raise WriteError, false, mkTransport (connected t) (written t) s)
  end.

(** ** [LogProducer] methods, on the handler's current producer *)

Definition on_producer (f : LogProducer -> LogProducer) (w : World) : World :=
  match _producer w with
  | Some p => set_producer (Some (f p)) w
  | None => w
  end.

Definition pauseProducing : M unit :=
  modify (on_producer (fun p => mkLogProducer (transport p) (_handler p) true)).

Definition stopProducing : M unit :=
  modify (on_producer (fun p => mkLogProducer (transport p) false true)).

(** [self._paused is False] *)
Definition producing (w : World) : bool :=
  match _producer w with
  | Some p => negb (_paused p)
  | None => false
  end.

(** [self.transport.connected] *)
Definition transport_connected (w : World) : bool :=
  match _producer w with
  | Some p =>
      match nth_error (transports w) (transport p) with
      | Some t => connected t
      | None => false
      end
  | None => false
  end.

(** [self.transport.write(data)]; a transport that pauses calls back into
    [pauseProducing] before [write] returns. *)
Definition transport_write (data : bytes) : M unit :=
  fun w =>
    match _producer w with
    | Some p =>
        match nth_error (transports w) (transport p) with
        | Some t =>
            match write data t with
            | (r, pause, t') =>
                let w' := set_transports (replace_nth (transport p) t' (transports w)) w in
                (r, if pause then snd (pauseProducing w') else w')
            end
        | None => (Raise WriteError, w)
        end
    | None => (Raise WriteError, w)
    end.

(** [traceback.print_exc(file=sys.__stderr__)] *)
Definition print_exc (e : exn) : M unit :=
  modify (fun w => set_stderr (stderr w ++ [e]) w).

(** The body of the [try] block in the loop of [resumeProducing], for the
    record at the head of the buffer and the records [rest] behind it. *)
Definition send_next (record : LogRecord) (rest : deque) : M bool :=
  (* Request the next record and format it. *)
  modify (set_buffer rest) ;;
  format <- gets formatter ;;
  msg <- lift (format record) ;;
  (* Send it as a new line over the transport. *)
  data <- lift (encode_utf8 msg) ;;
  transport_write data ;;
  transport_write newline ;;
  ret true.

(** The [while] loop of [resumeProducing].  [pending] is the content of
    [self._handler._buffer] at the loop test; every round pops one record,
    so the loop is structural in it. *)
Fixpoint produce (pending : deque) : M unit :=
  match pending with
  | [] => ret tt
  | record :: rest =>
      running <- gets producing ;;
      up <- gets transport_connected ;;
      if running && up then
        go_on <- try_except (send_next record rest)
                   (fun e => print_exc e ;; ret false) ;;
        if go_on : bool then produce rest else ret tt
      else ret tt
  end.

Definition resumeProducing : M unit :=
  modify (on_producer (fun p => mkLogProducer (transport p) (_handler p) false)) ;;
  (* _handler should always be set while this is resumed. *)
  bound <- gets (fun w => match _producer w with Some p => _handler p | None => false end) ;;
  if bound : bool then
    b <- gets _buffer ;;
    produce b
  else raise AssertionError.

(** ** [RemoteHandler._connect] *)

(** Modelled from the spec: connection failures and callback failures are
    never surfaced to the emitting caller (section 7).  A Twisted Deferred
    runs its callbacks inside a guard: an exception raised by a callback
    becomes the Deferred's result and never reaches the code that fired
    it. *)
Definition run_callback (m : M unit) : M unit :=
  fun w => (Ok tt, snd (m w)).

(** The callback [writer(r)].  [r] is the connected protocol, given by the
    transport it holds, or [None] when the callback runs on the result of
    the errback [fail]; then the first read of [r.transport] raises before
    anything was changed. *)
Definition writer (r : option nat) : M unit :=
  p <- gets _producer ;;
  match r, p with
  | Some tid, Some prod =>
      if Nat.eqb tid (transport prod) then
        (* We have a connection.  If we already have a producer, and its
           transport is the same, just trigger a resumeProducing. *)
        resumeProducing ;;
        modify (set_connection_waiter None)
      else
        (* If the producer is still producing, stop it. *)
        stopProducing ;;
        (* Make a new producer and start it. *)
        modify (set_producer (Some (mkLogProducer tid true true))) ;;
        resumeProducing ;;
        modify (set_connection_waiter None)
  | Some tid, None =>
      modify (set_producer (Some (mkLogProducer tid true true))) ;;
      resumeProducing ;;
      modify (set_connection_waiter None)
  | None, _ => raise AttributeError
  end.

(** [self._service.whenConnected(failAfterFailures=1)] followed by
    [addErrback(fail)] and [addCallback(writer)]: with a live connection the
    Deferred has its result already and [writer] runs at once; otherwise the
    Deferred is queued at the service and both callbacks wait. *)
Definition _connect : M unit :=
  waiter <- gets _connection_waiter ;;
  match waiter with
  | Some _ =>
      (* Do not attempt to open multiple connections. *)
      ret tt
  | None =>
      c <- gets (fun w => conn (_service w)) ;;
      match c with
      | Connecting n =>
          modify (set_conn (Connecting (S n))) ;;
          modify (set_connection_waiter (Some Waiting))
      | Connected tid =>
          modify (set_connection_waiter (Some Called)) ;;
          run_callback (writer (Some tid))
      end
  end.

(** The errback [fail(r)]. *)
Definition fail (r : exn) : M unit :=
  print_exc r ;;
  modify (set_connection_waiter None) ;;
  _connect.

(** A waiting Deferred called with a failure: the errback [fail] handles it
    and returns [None], which the Deferred then passes to the callback
    [writer]. *)
Definition failed (r : exn) : M unit :=
  run_callback (fail r) ;;
  run_callback (writer None).

(** ** [RemoteHandler.emit] *)

Definition failure_message : string := "Failed clearing backpressure".

(** [emit], with the method that [self._handle_pressure()] dispatches to
    as a parameter. *)
Definition emit_with (handle_pressure : M unit) (record : LogRecord) : M unit :=
  modify (fun w => set_buffer (_buffer w ++ [record]) w) ;;
  (* Handle backpressure, if it exists. *)
  try_except handle_pressure
    (fun _ =>
       (* If handling backpressure fails, clear the buffer and log the
          exception. *)
       modify (set_buffer []) ;;
       modify (fun w => set_logger (_logger w ++ [failure_message]) w)) ;;
  (* Try and write immediately. *)
  _connect.

Definition emit (record : LogRecord) : M unit :=
  emit_with _handle_pressure record.

(** ** [RemoteHandler.__init__] *)

(** What [ipaddress.ip_address] returns: an [IPv4Address], an [IPv6Address],
    or, as far as the [isinstance] tests of the constructor can tell, some
    other object. *)
Inductive IPAddress : Type :=
| IPv4Address
| IPv6Address
| OtherAddress.

(** The default formatter renders the message itself. *)
Definition default_formatter (record : LogRecord) : result pystr :=
  Ok (msg record).

(** The constructor; [ip_address] is the standard library's parser and
    [tried] the outcome of the [try] block.  The local name [reactor] is
    bound by the [import] statement, which only runs when no reactor was
    passed in. *)
Definition __init__ (ip_address : string -> result IPAddress)
    (host : string) (port : Z) (maximum_buffer : Z) (_reactor : option Reactor)
  : result World :=
  let reactor : option Reactor :=
    match _reactor with
    | None => Some GlobalReactor
    | Some _ => None
    end in
  let _reactor : Reactor :=
    match _reactor with
    | None => GlobalReactor
    | Some r => r
    end in
  let tried : result Endpoint :=
    match ip_address host with
    | Ok IPv4Address => Ok (TCP4ClientEndpoint _reactor host port)
    | Ok IPv6Address => Ok (TCP6ClientEndpoint _reactor host port)
    | Ok OtherAddress => Raise ValueError
    | Raise e => Raise e
    end in
  let endpoint : result Endpoint :=
    match tried with
    | Ok endpoint => Ok endpoint
    | Raise ValueError =>
        match reactor with
        | Some r => Ok (HostnameEndpoint r host port)
        | None => Raise UnboundLocalError
        end
    | Raise e => Raise e
    end in
  match endpoint with
  | Ok endpoint =>
      let w := mkWorld host port maximum_buffer default_formatter [] None []
                 None (mkClientService endpoint _reactor (Connecting 0)) [] [] in
      match _connect w with
      | (Ok _, w') => Ok w'
      | (Raise e, _) => Raise e
      end
  | Raise e => Raise e
  end.

(** ** The reactor's side: what can happen to a handler *)

(** Modelled from the spec: the events of sections 4.2 to 4.4.  A record is
    emitted, a connection attempt succeeds (with the script of the new
    transport) or fails, the connection is lost, or the live transport
    signals its producer to pause or to resume. *)
Inductive Event : Type :=
| Emit (record : LogRecord)
| ConnectionMade (script : list WriteAction)
| ConnectionFailed
| ConnectionLost
| TransportPause
| TransportResume.

(** The service calls each of its [n] waiting Deferreds in turn. *)
Fixpoint repeat_callback (n : nat) (m : M unit) (w : World) : World :=
  match n with
  | O => w
  | S n' => repeat_callback n' m (snd (run_callback m w))
  end.

(** Is the handler's producer the one registered with transport [tid]? *)
Definition registered (tid : nat) (w : World) : bool :=
  match _producer w with
  | Some p => Nat.eqb tid (transport p)
  | None => false
  end.

(** A transport that lost its connection. *)
Definition disconnect (t : Transport) : Transport :=
  mkTransport false (written t) (script t).

(** One event.  A new connection gets the next free place in the store of
    transports; a lost connection stops the producer registered with its
    transport and sends the service back to connecting; an event that does
    not fit the state of the service does not happen.  [close] is left
    out. *)
Definition step (ev : Event) (w : World) : World :=
  match ev, conn (_service w) with
  | Emit record, _ => snd (emit record w)
  | ConnectionMade sc, Connecting n =>
      let tid := List.length (transports w) in
      let w := set_transports (transports w ++ [mkTransport true [] sc]) w in
      let w := set_conn (Connected tid) w in
      repeat_callback n (writer (Some tid)) w
  | ConnectionFailed, Connecting n =>
      repeat_callback n (failed ConnectError) (set_conn (Connecting 0) w)
  | ConnectionLost, Connected tid =>
      let w :=
        match nth_error (transports w) tid with
        | Some t => set_transports (replace_nth tid (disconnect t) (transports w)) w
        | None => w
        end in
      let w := if registered tid w then snd (stopProducing w) else w in
      set_conn (Connecting 0) w
  | TransportPause, Connected tid =>
      if registered tid w then snd (pauseProducing w) else w
  | TransportResume, Connected tid =>
      if registered tid w then snd (resumeProducing w) else w
  | _, _ => w
  end.

(** A sequence of events, in order. *)
Fixpoint run (evs : list Event) (w : World) : World :=
  match evs with
  | [] => w
  | ev :: evs' => run evs' (step ev w)
  end.

(** ** Vocabulary of the statements *)

(** [record.levelno > lvl] *)
Definition above (lvl : Z) (record : LogRecord) : bool := lvl <? levelno record.

(** The records at or above WARNING, in buffer order. *)
Definition important (b : deque) : deque :=
  filter (fun record => WARNING <=? levelno record) b.

(** The first [k] and the last [k] records of [b]. *)
Definition keep_ends (k : nat) (b : deque) : deque :=
  firstn k b ++ skipn (List.length b - k) b.

(** The buffer a pressure-relief pass leaves, in closed form. *)
Definition shed (m : Z) (b : deque) : deque :=
  if len b <=? m then b else
  let b1 := filter (above DEBUG) b in
  if len b1 <=? m then b1 else
  let b2 := filter (above INFO) b1 in
  if len b2 <=? m then b2 else keep_ends (range_count (floor_half m)) b2.

(** The state inside [emit] right after [self._buffer.append(record)]. *)
Definition appended (record : LogRecord) (w : World) : World :=
  set_buffer (_buffer w ++ [record]) w.

(** The producer after the first statement of [resumeProducing]. *)
Definition resumed (p : LogProducer) : LogProducer :=
  mkLogProducer (transport p) (_handler p) false.

(** The transport the handler's producer writes to. *)
Definition producer_transport (w : World) : option Transport :=
  match _producer w with
  | Some p => nth_error (transports w) (transport p)
  | None => None
  end.

(** The arguments of the [write] calls that transport has received. *)
Definition write_calls (w : World) : list bytes :=
  match producer_transport w with
  | Some t => written t
  | None => []
  end.

(** [self._handler.format(record).encode("utf8")] *)
Definition rendered (w : World) (record : LogRecord) : result bytes :=
  match formatter w record with
  | Ok msg => encode_utf8 msg
  | Raise e => Raise e
  end.

(** The two [write] calls made for a record whose rendering is [data]. *)
Definition line_calls (data : bytes) : list bytes := [data; newline].

(** A reaction of the transport that leaves the producer's flag alone. *)
Definition never_pauses (a : WriteAction) : Prop := a <> AcceptThenPause.

(** The Deferreds of [whenConnected] still waiting at the service. *)
Definition pending_attempts (w : World) : nat :=
  match conn (_service w) with
  | Connecting n => n
  | Connected _ => 0
  end.

(** ** Frames and invariants *)

(** What a run of the producer leaves alone. *)
Definition untouched (w w' : World) : Prop :=
  host w' = host w /\ port w' = port w
  /\ maximum_buffer w' = maximum_buffer w
  /\ formatter w' = formatter w
  /\ _connection_waiter w' = _connection_waiter w
  /\ _logger w' = _logger w
  /\ _service w' = _service w
  /\ List.length (transports w') = List.length (transports w).

(** What the producer, the writer callback and a connected [_connect] leave
    alone, the buffer losing at most records from its head. *)
Definition steady (w w' : World) : Prop :=
  host w' = host w /\ port w' = port w
  /\ maximum_buffer w' = maximum_buffer w
  /\ formatter w' = formatter w
  /\ _logger w' = _logger w
  /\ _service w' = _service w
  /\ List.length (transports w') = List.length (transports w)
  /\ exists sent, _buffer w = sent ++ _buffer w'.

(** What no callback of the reactor changes. *)
Definition calm (w w' : World) : Prop :=
  maximum_buffer w' = maximum_buffer w
  /\ _logger w' = _logger w
  /\ exists sent, _buffer w = sent ++ _buffer w'.

(** The dedupe invariant: at most one Deferred waits at the service, and
    none does while the handler holds no waiter. *)
Definition one_attempt (w : World) : Prop :=
  (pending_attempts w <= 1)%nat
  /\ (_connection_waiter w = None -> pending_attempts w = 0%nat).

(** ** The wording of the specification, where the code differs *)

(** The shedding order: the first stage drops what is strictly below INFO,
    the second what is strictly below WARNING. *)
Definition sheds_below_INFO_then_below_WARNING (w : World) : Prop :=
  let b := _buffer w in
  let m := maximum_buffer w in
  let after := _buffer (snd (_handle_pressure w)) in
  let s1 := filter (fun record => negb (levelno record <? INFO)) b in
  let s2 := filter (fun record => negb (levelno record <? WARNING)) b in
  m < len b ->
  (len s1 <= m -> after = s1)
  /\ (m < len s1 -> len s2 <= m -> after = s2)
  /\ (len s1 <= m \/ len s2 <= m -> important after = important b).

(** The failure path: a run in which a step failed leaves the producer
    paused. *)
Definition left_paused_after_failure (w : World) : Prop :=
  let w' := snd (resumeProducing w) in
  stderr w' <> stderr w ->
  exists p', _producer w' = Some p' /\ _paused p' = true.

(** The framing: every delivered record arrives in a single [write] call
    holding its rendering and the newline. *)
Definition writes_each_record_in_one_call (w : World) : Prop :=
  let w' := snd (resumeProducing w) in
  exists sent calls,
    _buffer w = sent ++ _buffer w'
    /\ write_calls w' = write_calls w ++ calls
    /\ Forall2 (fun record call =>
                  exists d, rendered w record = Ok d /\ call = d ++ newline)
               sent calls.

(** The dedupe rule: with an attempt pending or a connection up, [_connect]
    changes nothing. *)
Definition connect_is_noop_when_busy (w : World) : Prop :=
  (_connection_waiter w <> None \/ exists tid, conn (_service w) = Connected tid) ->
  snd (_connect w) = w.

(** ** Sample records and handlers *)

Definition record_at (lvl : Z) (text : string) : LogRecord :=
  mkLogRecord lvl (pystr_of_string text).

(** The records of the cut-the-middle test:
    [logger.warning("warn %s" % (i,))]. *)
Definition warn (i : nat) : LogRecord :=
  record_at WARNING ("warn " ++ NilEmpty.string_of_uint (Nat.to_uint i)).

Definition bytes_of_string (s : string) : bytes := list_byte_of_string s.

(** A handler that is not connected and holds [b], with maximum [m]. *)
Definition waiting_handler (m : Z) (b : deque) : World :=
  mkWorld "127.0.0.1" 9000 m default_formatter b None [] None
    (mkClientService (TCP4ClientEndpoint GlobalReactor "127.0.0.1" 9000)
       GlobalReactor (Connecting 0))
    [] [].

(** A stand-in for [ipaddress.ip_address] that knows two literals and
    treats every other string as a host name. *)
Definition sample_ip_address (h : string) : result IPAddress :=
  if String.eqb h "127.0.0.1" then Ok IPv4Address
  else if String.eqb h "::1" then Ok IPv6Address
  else Raise ValueError.

(** The handler a successful constructor call returns. *)
Definition constructed (r : result World) : World :=
  match r with
  | Ok w => w
  | Raise _ => waiting_handler 0 []
  end.

(** [RemoteHandler("127.0.0.1", 9000, maximum_buffer=m)] *)
Definition local_handler (m : Z) : World :=
  constructed (__init__ sample_ip_address "127.0.0.1" 9000 m None).

(** Maximum 1: a DEBUG record is in the buffer and [emit] has just appended
    a record at the custom level 15. *)
Definition custom_level_handler : World :=
  appended (record_at 15 "verbose")
    (run [Emit (record_at DEBUG "debug")] (local_handler 1)).

(** Two records were emitted before the connection came up.  The new
    transport took the first one and asked for a pause, so the second is
    still in the buffer, and the producer waits for the transport to call
    [resumeProducing]; [sc] is how the transport will react from then on. *)
Definition backlog_handler (sc : list WriteAction) : World :=
  run [Emit (record_at INFO "first"); Emit (record_at INFO "Hello there, wally!");
       ConnectionMade (AcceptThenPause :: Accept :: sc)]
      (local_handler 10).

(** The transport will refuse the next [write]. *)
Definition refused_handler : World := backlog_handler [Refuse].

(** The transport will take what it is given. *)
Definition resumable_handler : World := backlog_handler [].

(** Scenario D: the state in which [emit] calls [_connect], connected and
    with the one record of the test appended. *)
Definition hello_handler : World :=
  appended (record_at INFO "Hello there, wally!")
    (run [ConnectionMade []] (local_handler 10)).

(** A stand-in for a [_handle_pressure] that fails. *)
Definition broken_pressure : M unit := raise IndexError.

(** ** Further vocabulary *)

(** [l1] is [l2] with some elements left out, the others in their order. *)
Inductive subsequence {A : Type} : list A -> list A -> Prop :=
| subsequence_nil : subsequence [] []
| subsequence_skip (x : A) (l1 l2 : list A) :
    subsequence l1 l2 -> subsequence l1 (x :: l2)
| subsequence_keep (x : A) (l1 l2 : list A) :
    subsequence l1 l2 -> subsequence (x :: l1) (x :: l2).

(** The records of the [Emit] events of [evs], in order. *)
Fixpoint emitted (evs : list Event) : list LogRecord :=
  match evs with
  | [] => []
  | Emit record :: evs' => record :: emitted evs'
  | _ :: evs' => emitted evs'
  end.

(** The handler once [writer] has settled which producer serves the
    connected transport [tid]: the one it has, if that is its transport,
    else a new one, the old one stopped. *)
Definition rebound (tid : nat) (w : World) : World :=
  match _producer w with
  | Some prod =>
      if Nat.eqb tid (transport prod) then w
      else set_producer (Some (mkLogProducer tid true true))
             (on_producer (fun p => mkLogProducer (transport p) false true) w)
  | None => set_producer (Some (mkLogProducer tid true true)) w
  end.

(** The producer points into the store of transports, and the producer of
    the live transport has its handler. *)
Definition bound_producer (w : World) : Prop :=
  (forall p, _producer w = Some p ->
             (transport p < List.length (transports w))%nat)
  /\ (forall tid p, conn (_service w) = Connected tid ->
                    _producer w = Some p -> transport p = tid ->
                    _handler p = true).

(** The states the events lead to: the waiter is held exactly while one
    Deferred waits at the service, the live transport is in the store, and
    the producer is bound as above. *)
Definition sound (w : World) : Prop :=
  match conn (_service w) with
  | Connecting n =>
      (_connection_waiter w = None /\ n = 0%nat)
      \/ (_connection_waiter w = Some Waiting /\ n = 1%nat)
  | Connected tid =>
      _connection_waiter w = None /\ (tid < List.length (transports w))%nat
  end
  /\ bound_producer w.

(** A transport that takes every [write] and never asks for a pause. *)
Definition accepting (t : Transport) : Prop :=
  Forall (fun a => a = Accept) (script t).

(** The newline byte, and how often it occurs in a byte string. *)
Definition line_feed : byte := "010"%byte.

Definition count_line_feeds (b : bytes) : nat :=
  List.length (filter (Byte.eqb line_feed) b).

(** How often the line feed character occurs in a string. *)
Definition count_line_feed_chars (s : pystr) : nat :=
  List.length (filter (N.eqb 10) s).

(** The reactor the constructor settles on. *)
Definition chosen_reactor (r : option Reactor) : Reactor :=
  match r with
  | Some x => x
  | None => GlobalReactor
  end.

(** * Properties *)

Ltac run_py :=
  unfold bind, ret, raise, lift, modify, gets, try_except, run_callback; simpl.

(** ** The deque and the record update functions *)

Lemma set_buffer_same (w : World) : set_buffer (_buffer w) w = w.
Proof. destruct w; reflexivity. Qed.

Lemma len_nonneg {A : Type} (l : list A) : 0 <= len l.
Proof. unfold len; lia. Qed.

Lemma len_app {A : Type} (l1 l2 : list A) : len (l1 ++ l2) = len l1 + len l2.
Proof. unfold len; rewrite length_app; lia. Qed.

Lemma pop_last (d : deque) (x : LogRecord) : pop (d ++ [x]) = Ok (x, d).
Proof.
  induction d as [|y d IH]; [reflexivity|].
  change ((y :: d) ++ [x]) with (y :: (d ++ [x])).
  destruct (d ++ [x]) as [|z tl] eqn:E.
  - destruct d; discriminate.
  - cbn [pop]. cbn [pop] in IH. rewrite IH. reflexivity.
Qed.

Lemma split_last {A : Type} (n : nat) (l : list A) :
  List.length l = S n -> exists l' x, l = l' ++ [x] /\ List.length l' = n.
Proof.
  intros H. destruct (exists_last (l := l)) as [l' [x E]].
  - intros ->; discriminate.
  - exists l', x. split; [assumption|].
    subst l. rewrite length_app in H. simpl in H. lia.
Qed.

Lemma move_head_ok (n : nat) : forall (old : deque) (w : World),
  (n <= List.length old)%nat ->
  move_head n old w = (Ok (skipn n old), set_buffer (_buffer w ++ firstn n old) w).
Proof.
  induction n as [|n IH]; intros old w Hn.
  - simpl. run_py. rewrite app_nil_r, set_buffer_same. reflexivity.
  - destruct old as [|x old]; [simpl in Hn; lia|].
    cbn [move_head]. run_py. rewrite IH by (simpl in Hn; lia).
    simpl. rewrite <- app_assoc. reflexivity.
Qed.

Lemma move_tail_ok (n : nat) :
  forall (front back : deque) (end_buffer : list LogRecord) (w : World),
  List.length back = n ->
  move_tail n (front ++ back) end_buffer w
  = (Ok (front, end_buffer ++ rev back), w).
Proof.
  induction n as [|n IH]; intros front back e w Hn.
  - destruct back; [|discriminate]. simpl. run_py.
    rewrite !app_nil_r. reflexivity.
  - destruct (split_last n back Hn) as [back' [x [-> Hl]]].
    cbn [move_tail]. run_py. rewrite app_assoc, pop_last.
    rewrite (IH front back' (e ++ [x]) w Hl).
    rewrite rev_app_distr, <- app_assoc. reflexivity.
Qed.

Lemma floor_half_bound (m : Z) (b : deque) :
  m < len b -> (range_count (floor_half m) + range_count (floor_half m) <= List.length b)%nat.
Proof.
  unfold range_count, floor_half, len. intros H.
  destruct (Z_lt_le_dec m 0) as [Hneg|Hpos].
  - assert (m / 2 < 0) by (apply Z.div_lt_upper_bound; lia).
    lia.
  - assert (0 <= m / 2) by (apply Z.div_pos; lia).
    assert (2 * (m / 2) <= m) by (apply Z.mul_div_le; lia).
    lia.
Qed.

Lemma cut_the_middle_ok (m : Z) (b : deque) (w : World) :
  m < len b ->
  cut_the_middle m b w
  = (Ok tt, set_buffer (keep_ends (range_count (floor_half m)) b) w).
Proof.
  intros H. pose proof (floor_half_bound m b H) as Hk.
  unfold cut_the_middle, keep_ends.
  set (k := range_count (floor_half m)) in *.
  unfold bind at 1. unfold modify at 1.
  unfold bind at 1. rewrite move_head_ok by lia.
  unfold bind at 1.
  assert (E : skipn k b
              = firstn (List.length b - k - k) (skipn k b) ++ skipn (List.length b - k) b).
  { rewrite <- (firstn_skipn (List.length b - k - k) (skipn k b)) at 1.
    rewrite skipn_skipn. replace (List.length b - k - k + k)%nat with (List.length b - k)%nat by lia.
    reflexivity. }
  rewrite E.
  rewrite move_tail_ok by (rewrite length_skipn; lia).
  run_py. rewrite rev_involutive. reflexivity.
Qed.

Lemma filter_gtb (lvl : Z) (b : deque) :
  filter (fun record => levelno record >? lvl) b = filter (above lvl) b.
Proof.
  apply filter_ext. intros r. unfold above. apply Z.gtb_ltb.
Qed.

Lemma handle_pressure_run (w : World) :
  _handle_pressure w = (Ok tt, set_buffer (shed (maximum_buffer w) (_buffer w)) w).
Proof.
  unfold _handle_pressure, shed, bind, gets, modify, ret.
  cbn [_buffer set_buffer maximum_buffer].
  rewrite !filter_gtb.
  destruct (len (_buffer w) <=? maximum_buffer w) eqn:E0.
  { rewrite set_buffer_same. reflexivity. }
  destruct (len (filter (above DEBUG) (_buffer w)) <=? maximum_buffer w) eqn:E1.
  { reflexivity. }
  destruct (len (filter (above INFO) (filter (above DEBUG) (_buffer w)))
            <=? maximum_buffer w) eqn:E2.
  { reflexivity. }
  rewrite cut_the_middle_ok by (apply Z.leb_gt; exact E2).
  reflexivity.
Qed.

Lemma filter_above_twice (lo hi : Z) (b : deque) :
  lo <= hi -> filter (above hi) (filter (above lo) b) = filter (above hi) b.
Proof.
  intros H. induction b as [|r b IH]; [reflexivity|].
  simpl. destruct (above lo r) eqn:E1; destruct (above hi r) eqn:E2;
    simpl; rewrite ?E2, ?IH; try reflexivity.
  unfold above in E1, E2. apply Z.ltb_ge in E1. apply Z.ltb_lt in E2. lia.
Qed.

Lemma filter_length_le {A : Type} (p : A -> bool) (l : list A) :
  len (filter p l) <= len l.
Proof. unfold len. pose proof (filter_length_le p l). lia. Qed.

Lemma keep_ends_length (k : nat) (b : deque) :
  (k + k <= List.length b)%nat -> List.length (keep_ends k b) = (k + k)%nat.
Proof.
  intros H. unfold keep_ends.
  rewrite length_app, length_firstn, length_skipn. lia.
Qed.

Lemma keep_ends_split (k : nat) (b : deque) :
  (k + k <= List.length b)%nat ->
  b = firstn k b ++ firstn (List.length b - k - k) (skipn k b)
        ++ skipn (List.length b - k) b.
Proof.
  intros H.
  rewrite <- (firstn_skipn k b) at 1. f_equal.
  rewrite <- (firstn_skipn (List.length b - k - k) (skipn k b)) at 1. f_equal.
  rewrite skipn_skipn. f_equal. lia.
Qed.

Lemma important_above (lvl : Z) (b : deque) :
  lvl < WARNING -> important (filter (above lvl) b) = important b.
Proof.
  intros H. unfold important. induction b as [|r b IH]; [reflexivity|].
  simpl. destruct (above lvl r) eqn:E1; destruct (WARNING <=? levelno r) eqn:E2;
    simpl; rewrite ?E2, ?IH; try reflexivity.
  unfold above in E1. apply Z.ltb_ge in E1. apply Z.leb_le in E2. lia.
Qed.

Lemma standard_below_INFO (b : deque) :
  Forall (fun record => standard_level (levelno record)) b ->
  filter (above DEBUG) b = filter (fun record => negb (levelno record <? INFO)) b.
Proof.
  intros H. induction H as [|r b Hr _ IH]; [reflexivity|].
  simpl. rewrite IH. replace (above DEBUG r) with (negb (levelno r <? INFO)); [reflexivity|].
  unfold above, standard_level, DEBUG, INFO, WARNING, ERROR, CRITICAL in *.
  destruct Hr as [-> | [-> | [-> | [-> | ->]]]]; reflexivity.
Qed.

Lemma standard_below_WARNING (b : deque) :
  Forall (fun record => standard_level (levelno record)) b ->
  filter (above INFO) b = filter (fun record => negb (levelno record <? WARNING)) b.
Proof.
  intros H. induction H as [|r b Hr _ IH]; [reflexivity|].
  simpl. rewrite IH. replace (above INFO r) with (negb (levelno r <? WARNING)); [reflexivity|].
  unfold above, standard_level, DEBUG, INFO, WARNING, ERROR, CRITICAL in *.
  destruct Hr as [-> | [-> | [-> | [-> | ->]]]]; reflexivity.
Qed.

Lemma pop_nonempty (d : deque) :
  d <> [] -> exists x rest, pop d = Ok (x, rest).
Proof.
  intros H. destruct (exists_last H) as [d' [x ->]].
  exists x, d'. apply pop_last.
Qed.

Lemma move_tail_partial (j : nat) (d : deque) (w : World) :
  (j <= List.length d)%nat ->
  move_tail j d [] w
  = (Ok (firstn (List.length d - j) d, rev (skipn (List.length d - j) d)), w).
Proof.
  intros H.
  rewrite <- (firstn_skipn (List.length d - j) d) at 1.
  rewrite move_tail_ok by (rewrite length_skipn; lia).
  reflexivity.
Qed.

(** ** The shedding stages *)

(** C1, as the code has it: a pass over a buffer longer than the maximum
    first drops exactly the records whose level is at most DEBUG, keeping the
    others in order, and only if the buffer is still too long drops exactly
    those at most INFO as well.  Neither stage drops a record at WARNING or
    above.  For records at the five named levels, "at most DEBUG" is
    "strictly below INFO" and "at most INFO" is "strictly below WARNING". *)
Theorem handle_pressure_sheds_by_level (w : World) :
  let b := _buffer w in
  let m := maximum_buffer w in
  let after := _buffer (snd (_handle_pressure w)) in
  let s1 := filter (above DEBUG) b in
  let s2 := filter (above INFO) b in
  m < len b ->
  fst (_handle_pressure w) = Ok tt
  /\ (len s1 <= m -> after = s1)
  /\ (m < len s1 -> len s2 <= m -> after = s2)
  /\ important s1 = important b
  /\ important s2 = important b
  /\ (Forall (fun record => standard_level (levelno record)) b ->
      s1 = filter (fun record => negb (levelno record <? INFO)) b
      /\ s2 = filter (fun record => negb (levelno record <? WARNING)) b).
Proof.
  intros b m after s1 s2 Hover.
  subst after. rewrite handle_pressure_run. cbn [fst snd _buffer set_buffer].
  fold b m. unfold shed.
  assert (E0 : (len b <=? m) = false) by (apply Z.leb_gt; exact Hover).
  rewrite E0. cbn zeta.
  rewrite (filter_above_twice DEBUG INFO) by (unfold DEBUG, INFO; lia).
  fold s1 s2.
  split; [reflexivity|].
  split.
  { intros H1. apply Z.leb_le in H1. rewrite H1. reflexivity. }
  split.
  { intros H1 H2. apply Z.leb_gt in H1. apply Z.leb_le in H2.
    rewrite H1, H2. reflexivity. }
  split; [apply important_above; unfold DEBUG, WARNING; lia|].
  split; [apply important_above; unfold INFO, WARNING; lia|].
  intros Hstd. split.
  - apply standard_below_INFO; exact Hstd.
  - apply standard_below_WARNING; exact Hstd.
Qed.

Lemma handle_pressure_sheds_by_level_witness :
  _buffer (snd (_handle_pressure
     (waiting_handler 1 [record_at DEBUG "a"; record_at INFO "b"; record_at ERROR "c"])))
  = [record_at ERROR "c"].
Proof.
  pose proof (handle_pressure_sheds_by_level
    (waiting_handler 1 [record_at DEBUG "a"; record_at INFO "b"; record_at ERROR "c"]))
    as H.
  cbv zeta in H.
  destruct H as [_ [_ [H _]]]; [vm_compute; reflexivity|].
  rewrite H; [reflexivity | vm_compute; reflexivity | vm_compute; discriminate].
Defined.

(** C1 as worded fails on a record at a custom level between DEBUG and INFO:
    it is strictly below INFO and yet survives the first stage. *)
Lemma custom_level_survives_first_stage :
  ~ sheds_below_INFO_then_below_WARNING custom_level_handler.
Proof.
  unfold sheds_below_INFO_then_below_WARNING. intros H.
  destruct H as [H _]; [vm_compute; reflexivity|].
  specialize (H ltac:(vm_compute; discriminate)).
  vm_compute in H. discriminate H.
Qed.

(** C2: when more than the maximum is left after both level stages, the pass
    ends with the first [k] and the last [k] of those records, [k] being
    [floor(maximum / 2)]; what lies between is dropped, and the kept tail
    is in its original order after the kept head. *)
Theorem middle_cut_keeps_first_and_last (w : World) :
  let m := maximum_buffer w in
  let b2 := filter (above INFO) (filter (above DEBUG) (_buffer w)) in
  let k := Z.to_nat (m / 2) in
  m < len b2 ->
  _handle_pressure w
  = (Ok tt, set_buffer (firstn k b2 ++ skipn (List.length b2 - k) b2) w)
  /\ b2 = firstn k b2 ++ firstn (List.length b2 - k - k) (skipn k b2)
            ++ skipn (List.length b2 - k) b2
  /\ (0 <= m -> Z.of_nat k = m / 2).
Proof.
  intros m b2 k Hover.
  pose proof (floor_half_bound m b2 Hover) as Hk.
  pose proof (filter_length_le (above INFO) (filter (above DEBUG) (_buffer w))) as H2.
  pose proof (filter_length_le (above DEBUG) (_buffer w)) as H1.
  fold b2 in H2.
  split; [|split].
  - rewrite handle_pressure_run. unfold shed. fold m.
    replace (len (_buffer w) <=? m) with false by (symmetry; apply Z.leb_gt; lia).
    cbn zeta.
    replace (len (filter (above DEBUG) (_buffer w)) <=? m) with false
      by (symmetry; apply Z.leb_gt; lia).
    fold b2.
    replace (len b2 <=? m) with false by (symmetry; apply Z.leb_gt; lia).
    reflexivity.
  - apply keep_ends_split. exact Hk.
  - intros Hm. apply Z2Nat.id. apply Z.div_pos; lia.
Qed.

Lemma middle_cut_keeps_first_and_last_witness :
  _buffer (snd (_handle_pressure
     (waiting_handler 2 [record_at WARNING "a"; record_at ERROR "b"; record_at WARNING "c"])))
  = [record_at WARNING "a"; record_at WARNING "c"].
Proof.
  pose proof (middle_cut_keeps_first_and_last
    (waiting_handler 2 [record_at WARNING "a"; record_at ERROR "b"; record_at WARNING "c"]))
    as H.
  cbv zeta in H.
  destruct H as [H _]; [vm_compute; reflexivity|].
  rewrite H. reflexivity.
Defined.

(** ** The producer's loop *)

Lemma untouched_refl (w : World) : untouched w w.
Proof. unfold untouched; repeat split; reflexivity. Qed.

Lemma untouched_trans (w1 w2 w3 : World) :
  untouched w1 w2 -> untouched w2 w3 -> untouched w1 w3.
Proof.
  unfold untouched. intros H1 H2.
  repeat match goal with H : _ /\ _ |- _ => destruct H end.
  repeat split; congruence.
Qed.

Lemma replace_nth_length {A : Type} (n : nat) (x : A) (l : list A) :
  List.length (replace_nth n x l) = List.length l.
Proof.
  revert n; induction l as [|y l IH]; intros [|n]; simpl; try reflexivity.
  rewrite IH; reflexivity.
Qed.

Lemma nth_error_replace_nth {A : Type} (n : nat) (x : A) (l : list A) :
  (n < List.length l)%nat -> nth_error (replace_nth n x l) n = Some x.
Proof.
  revert n; induction l as [|y l IH]; intros [|n] H; simpl in *; try lia.
  - reflexivity.
  - apply IH; lia.
Qed.

(** One [write] call, seen from the handler. *)
Lemma transport_write_spec (data : bytes) (w : World) (p : LogProducer) (t : Transport) :
  _producer w = Some p ->
  nth_error (transports w) (transport p) = Some t ->
  exists p' t',
    _producer (snd (transport_write data w)) = Some p'
    /\ transport p' = transport p
    /\ _handler p' = _handler p
    /\ nth_error (transports (snd (transport_write data w))) (transport p) = Some t'
    /\ connected t' = connected t
    /\ untouched w (snd (transport_write data w))
    /\ _buffer (snd (transport_write data w)) = _buffer w
    /\ stderr (snd (transport_write data w)) = stderr w
    /\ (fst (transport_write data w) = Ok tt /\ written t' = written t ++ [data]
        \/ fst (transport_write data w) = Raise WriteError /\ written t' = written t)
    /\ (Forall never_pauses (script t) -> p' = p /\ Forall never_pauses (script t')).
Proof.
  intros Hp Ht.
  assert (Hlen : (transport p < List.length (transports w))%nat)
    by (apply nth_error_Some; congruence).
  unfold transport_write. rewrite Hp, Ht. unfold write.
  destruct (script t) as [|[| |] s] eqn:Es; cbn [fst snd].
  - exists p, (mkTransport (connected t) (written t ++ [data]) []).
    unfold untouched; cbn.
    rewrite ?replace_nth_length, ?nth_error_replace_nth by exact Hlen.
    repeat split; auto.
  - exists p, (mkTransport (connected t) (written t ++ [data]) s).
    unfold untouched; cbn.
    rewrite ?replace_nth_length, ?nth_error_replace_nth by exact Hlen.
    repeat split; auto. inversion H; assumption.
  - exists (mkLogProducer (transport p) (_handler p) true),
           (mkTransport (connected t) (written t ++ [data]) s).
    unfold pauseProducing, modify, on_producer, untouched. cbn. rewrite Hp. cbn.
    rewrite ?replace_nth_length, ?nth_error_replace_nth by exact Hlen.
    repeat split; auto; inversion H; exfalso; apply H2; reflexivity.
  - exists p, (mkTransport (connected t) (written t) s).
    unfold untouched; cbn.
    rewrite ?replace_nth_length, ?nth_error_replace_nth by exact Hlen.
    repeat split; auto. inversion H; assumption.
Qed.

Lemma send_next_unfold (record : LogRecord) (rest : deque) (w : World) :
  send_next record rest w
  = match formatter w record with
    | Ok msg =>
        match encode_utf8 msg with
        | Ok data =>
            let (r, w1) := transport_write data (set_buffer rest w) in
            match r with
            | Ok _ =>
                let (r', w2) := transport_write newline w1 in
                match r' with
                | Ok _ => (Ok true, w2)
                | Raise e => (Raise e, w2)
                end
            | Raise e => (Raise e, w1)
            end
        | Raise e => (Raise e, set_buffer rest w)
        end
    | Raise e => (Raise e, set_buffer rest w)
    end.
Proof. reflexivity. Qed.

(** One round of the loop body: the record is popped, and either both
    [write] calls were made, or the round raised after none or one of them. *)
Lemma send_next_spec (record : LogRecord) (rest : deque) (w : World)
    (p : LogProducer) (t : Transport) :
  _producer w = Some p ->
  nth_error (transports w) (transport p) = Some t ->
  exists p' t',
    _producer (snd (send_next record rest w)) = Some p'
    /\ transport p' = transport p
    /\ _handler p' = _handler p
    /\ nth_error (transports (snd (send_next record rest w))) (transport p) = Some t'
    /\ connected t' = connected t
    /\ untouched w (snd (send_next record rest w))
    /\ _buffer (snd (send_next record rest w)) = rest
    /\ stderr (snd (send_next record rest w)) = stderr w
    /\ ((fst (send_next record rest w) = Ok true
         /\ exists d, rendered w record = Ok d
                      /\ written t' = written t ++ line_calls d)
        \/ ((exists e, fst (send_next record rest w) = Raise e)
            /\ (written t' = written t
                \/ exists d, rendered w record = Ok d
                             /\ written t' = written t ++ [d])))
    /\ (Forall never_pauses (script t) -> p' = p /\ Forall never_pauses (script t')).
Proof.
  intros Hp Ht. rewrite send_next_unfold. unfold rendered.
  destruct (formatter w record) as [msg|e] eqn:Ef.
  2:{ exists p, t. cbn. repeat split; auto using untouched_refl.
      right. split; [exists e; reflexivity | left; reflexivity]. }
  destruct (encode_utf8 msg) as [data|e] eqn:Ee.
  2:{ exists p, t. cbn. repeat split; auto using untouched_refl.
      right. split; [exists e; reflexivity | left; reflexivity]. }
  assert (Hu0 : untouched w (set_buffer rest w))
    by (unfold untouched; cbn; repeat split; reflexivity).
  destruct (transport_write_spec data (set_buffer rest w) p t Hp Ht)
    as (p1 & t1 & Hp1 & Htr1 & Hh1 & Ht1 & Hc1 & Hu1 & Hb1 & He1 & Hw1 & Hs1).
  destruct (transport_write data (set_buffer rest w)) as [r1 w1].
  cbn [fst snd _buffer stderr set_buffer] in *.
  pose proof (untouched_trans _ _ _ Hu0 Hu1) as Hu01.
  destruct Hw1 as [[-> Hw1] | [-> Hw1]].
  2:{ exists p1, t1.
      split; [exact Hp1|]. split; [exact Htr1|]. split; [exact Hh1|].
      split; [exact Ht1|]. split; [exact Hc1|]. split; [exact Hu01|].
      split; [exact Hb1|]. split; [exact He1|]. split; [|exact Hs1].
      right. split; [exists WriteError; reflexivity | left; exact Hw1]. }
  rewrite <- Htr1 in Ht1.
  destruct (transport_write_spec newline w1 p1 t1 Hp1 Ht1)
    as (p2 & t2 & Hp2 & Htr2 & Hh2 & Ht2 & Hc2 & Hu2 & Hb2 & He2 & Hw2 & Hs2).
  destruct (transport_write newline w1) as [r2 w2].
  cbn [fst snd] in *.
  assert (Hs12 : Forall never_pauses (script t) ->
                 p2 = p /\ Forall never_pauses (script t2)).
  { intros Hn. destruct (Hs1 Hn) as [-> Hn1]. destruct (Hs2 Hn1) as [-> Hn2].
    split; [reflexivity | exact Hn2]. }
  destruct Hw2 as [[-> Hw2] | [-> Hw2]]; cbn [fst snd]; exists p2, t2;
    (split; [exact Hp2|]); (split; [congruence|]); (split; [congruence|]);
    (split; [rewrite <- Htr1; exact Ht2|]); (split; [congruence|]);
    (split; [exact (untouched_trans _ _ _ Hu01 Hu2)|]);
    (split; [rewrite Hb2; exact Hb1|]); (split; [rewrite He2; exact He1|]);
    (split; [|exact Hs12]).
  - left. split; [reflexivity|]. exists data. split; [reflexivity|].
    rewrite Hw2, Hw1, <- app_assoc. reflexivity.
  - right. split; [exists WriteError; reflexivity|].
    right. exists data. split; [reflexivity|]. rewrite Hw2. exact Hw1.
Qed.

Lemma produce_cons (record : LogRecord) (rest : deque) (w : World) :
  produce (record :: rest) w
  = if producing w && transport_connected w then
      match send_next record rest w with
      | (Ok true, w1) => produce rest w1
      | (Ok false, w1) => (Ok tt, w1)
      | (Raise e, w1) => (Ok tt, set_stderr (stderr w1 ++ [e]) w1)
      end
    else (Ok tt, w).
Proof.
  cbn [produce]. unfold bind, gets, try_except, print_exc, modify, ret.
  destruct (producing w && transport_connected w); [|reflexivity].
  destruct (send_next record rest w) as [[[|]|e] w1]; reflexivity.
Qed.

Lemma rendered_untouched (w w' : World) (record : LogRecord) :
  untouched w w' -> rendered w' record = rendered w record.
Proof.
  intros (_ & _ & _ & Hf & _). unfold rendered. rewrite Hf. reflexivity.
Qed.

(** A run of the loop: the records sent are a prefix of the buffer, each
    accounts for two [write] calls, and a failing round ends the run. *)
Lemma produce_trace (pending : deque) :
  forall (w : World) (p : LogProducer) (t : Transport),
  _producer w = Some p ->
  nth_error (transports w) (transport p) = Some t ->
  _buffer w = pending ->
  fst (produce pending w) = Ok tt
  /\ exists p' t' sent datas rest extra,
       _producer (snd (produce pending w)) = Some p'
       /\ transport p' = transport p
       /\ _handler p' = _handler p
       /\ nth_error (transports (snd (produce pending w))) (transport p) = Some t'
       /\ connected t' = connected t
       /\ untouched w (snd (produce pending w))
       /\ Forall2 (fun record d => rendered w record = Ok d) sent datas
       /\ written t' = written t ++ flat_map line_calls datas ++ extra
       /\ _buffer (snd (produce pending w)) = rest
       /\ ((pending = sent ++ rest /\ extra = []
            /\ stderr (snd (produce pending w)) = stderr w
            /\ (rest = []
                \/ producing (snd (produce pending w))
                   && transport_connected (snd (produce pending w)) = false))
           \/ (exists failing e,
                 pending = sent ++ failing :: rest
                 /\ stderr (snd (produce pending w)) = stderr w ++ [e]
                 /\ (extra = []
                     \/ exists d, rendered w failing = Ok d /\ extra = [d])))
       /\ (Forall never_pauses (script t) -> p' = p).
Proof.
  induction pending as [|record rest0 IH]; intros w p t Hp Ht Hb.
  - split; [reflexivity|]. cbn [produce ret snd].
    exists p, t, [], [], [], [].
    repeat split; auto using untouched_refl.
    + rewrite app_nil_r. reflexivity.
    + left. repeat split; auto.
  - rewrite produce_cons.
    destruct (producing w && transport_connected w) eqn:Erun.
    2:{ split; [reflexivity|]. cbn [snd].
        exists p, t, [], [], (record :: rest0), [].
        repeat split; auto using untouched_refl.
        + rewrite app_nil_r. reflexivity.
        + left. repeat split; auto. }
    destruct (send_next_spec record rest0 w p t Hp Ht)
      as (p1 & t1 & Hp1 & Htr1 & Hh1 & Ht1 & Hc1 & Hu1 & Hb1 & He1 & Hw1 & Hs1).
    destruct (send_next record rest0 w) as [r1 w1]. cbn [fst snd] in *.
    destruct Hw1 as [[-> (d & Hd & Hw1)] | [[e ->] Hw1]].
    + (* the record went out: the loop goes on *)
      rewrite <- Htr1 in Ht1.
      destruct (IH w1 p1 t1 Hp1 Ht1 Hb1)
        as (Hok & p' & t' & sent & datas & rest & extra & Hp' & Htr' & Hh' & Ht'
            & Hc' & Hu' & Hsent & Hw' & Hb' & Hcase & Hs').
      split; [exact Hok|].
      exists p', t', (record :: sent), (d :: datas), rest, extra.
      split; [exact Hp'|]. split; [congruence|]. split; [congruence|].
      split; [rewrite <- Htr1; exact Ht'|]. split; [congruence|].
      split; [exact (untouched_trans _ _ _ Hu1 Hu')|].
      split.
      { constructor; [exact Hd|].
        eapply Forall2_impl; [|exact Hsent].
        intros r0 d0 H0. rewrite <- (rendered_untouched w w1 r0 Hu1). exact H0. }
      split.
      { rewrite Hw', Hw1. cbn [flat_map]. unfold line_calls at 2.
        rewrite <- !app_assoc. reflexivity. }
      split; [exact Hb'|].
      split.
      { destruct Hcase as [(Hpend & Hex & Herr & Hstop)
                          | (failing & e & Hpend & Herr & Hex)].
        - left. split; [cbn; rewrite Hpend; reflexivity|].
          split; [exact Hex|]. split; [congruence|]. exact Hstop.
        - right. exists failing, e.
          split; [cbn; rewrite Hpend; reflexivity|].
          split; [congruence|].
          destruct Hex as [Hex | (d' & Hd' & Hex)]; [left; exact Hex|].
          right. exists d'. split; [|exact Hex].
          rewrite <- (rendered_untouched w w1 failing Hu1). exact Hd'. }
      intros Hn. destruct (Hs1 Hn) as [E Hn1]. subst p1.
      apply Hs'. exact Hn1.
    + (* the round raised: the traceback is printed and the loop is left *)
      split; [reflexivity|]. cbn [snd].
      exists p1, t1, [], [], rest0, (skipn (List.length (written t)) (written t1)).
      cbn [_producer transports set_stderr _buffer stderr].
      assert (Hextra : written t1 = written t
                         ++ skipn (List.length (written t)) (written t1)).
      { destruct Hw1 as [Hw1 | (d & Hd & Hw1)]; rewrite Hw1 at 1; rewrite Hw1.
        - rewrite skipn_all, app_nil_r. reflexivity.
        - rewrite skipn_app, skipn_all, Nat.sub_diag. reflexivity. }
      split; [exact Hp1|]. split; [exact Htr1|]. split; [exact Hh1|].
      split; [exact Ht1|]. split; [exact Hc1|].
      split.
      { unfold untouched in *. cbn. exact Hu1. }
      split; [constructor|].
      split; [exact Hextra|].
      split; [exact Hb1|].
      split.
      { right. exists record, e. split; [reflexivity|].
        split; [rewrite He1; reflexivity|].
        destruct Hw1 as [Hw1 | (d & Hd & Hw1)]; rewrite Hw1.
        - left. apply skipn_all.
        - right. exists d. split; [exact Hd|].
          rewrite skipn_app, skipn_all, Nat.sub_diag. reflexivity. }
      intros Hn. apply Hs1. exact Hn.
Qed.

Lemma resumeProducing_unfold (w : World) (p : LogProducer) :
  _producer w = Some p ->
  resumeProducing w
  = if _handler p
    then produce (_buffer w) (set_producer (Some (resumed p)) w)
    else (Raise AssertionError, set_producer (Some (resumed p)) w).
Proof.
  intros Hp. unfold resumeProducing, bind, modify, gets, raise, on_producer.
  rewrite Hp. destruct p as [tr [|] pa]; reflexivity.
Qed.

(** ** A run of [resumeProducing] *)

Section Resume.

(** The producer [p] of the handler writes to the transport [t]. *)
Variable w : World.
Variable p : LogProducer.
Variable t : Transport.
Hypothesis producer_bound : _producer w = Some p.
Hypothesis transport_found : nth_error (transports w) (transport p) = Some t.

Lemma resumeProducing_trace :
  exists p' t' sent datas rest extra,
    _producer (snd (resumeProducing w)) = Some p'
    /\ transport p' = transport p
    /\ nth_error (transports (snd (resumeProducing w))) (transport p) = Some t'
    /\ untouched w (snd (resumeProducing w))
    /\ Forall2 (fun record d => rendered w record = Ok d) sent datas
    /\ written t' = written t ++ flat_map line_calls datas ++ extra
    /\ _buffer (snd (resumeProducing w)) = rest
    /\ ((_buffer w = sent ++ rest /\ extra = []
         /\ stderr (snd (resumeProducing w)) = stderr w)
        \/ (exists failing e,
              _buffer w = sent ++ failing :: rest
              /\ stderr (snd (resumeProducing w)) = stderr w ++ [e]
              /\ (extra = [] \/ exists d, rendered w failing = Ok d /\ extra = [d])))
    /\ (Forall never_pauses (script t) -> _paused p' = false).
Proof.
  rewrite (resumeProducing_unfold w p producer_bound).
  set (w0 := set_producer (Some (resumed p)) w).
  assert (Hu0 : untouched w w0)
    by (unfold untouched; cbn; repeat split; reflexivity).
  destruct (_handler p) eqn:Hh.
  - destruct (produce_trace (_buffer w) w0 (resumed p) t eq_refl transport_found eq_refl)
      as (_ & p' & t' & sent & datas & rest & extra & Hp' & Htr' & Hh' & Ht'
          & Hc' & Hu' & Hsent & Hw' & Hb' & Hcase & Hs').
    exists p', t', sent, datas, rest, extra.
    split; [exact Hp'|]. split; [exact Htr'|]. split; [exact Ht'|].
    split; [exact (untouched_trans _ _ _ Hu0 Hu')|].
    split; [exact Hsent|]. split; [exact Hw'|]. split; [exact Hb'|].
    split.
    + destruct Hcase as [(Hpend & Hex & Herr & _) | Hfail].
      * left. repeat split; assumption.
      * right. exact Hfail.
    + intros Hn. rewrite (Hs' Hn). reflexivity.
  - exists (resumed p), t, [], [], (_buffer w), [].
    cbn [snd].
    split; [reflexivity|]. split; [reflexivity|]. split; [exact transport_found|].
    split; [exact Hu0|]. split; [constructor|].
    split; [rewrite app_nil_r; reflexivity|]. split; [reflexivity|].
    split; [left; repeat split; reflexivity|].
    intros _. reflexivity.
Qed.

(** C6, as the code has it: when a formatting or write step fails during a
    run of [resumeProducing], one traceback is printed, the loop ends at that
    record -- the records behind it stay in the buffer and nothing is written
    for them -- and the paused flag is not set: it stays cleared unless the
    transport itself asked for a pause. *)
Theorem resumeProducing_failure_stops_loop :
  stderr (snd (resumeProducing w)) <> stderr w ->
  exists p' t' sent failing rest datas extra e,
    stderr (snd (resumeProducing w)) = stderr w ++ [e]
    /\ _buffer w = sent ++ failing :: rest
    /\ _buffer (snd (resumeProducing w)) = rest
    /\ Forall2 (fun record d => rendered w record = Ok d) sent datas
    /\ _producer (snd (resumeProducing w)) = Some p'
    /\ nth_error (transports (snd (resumeProducing w))) (transport p) = Some t'
    /\ written t' = written t ++ flat_map line_calls datas ++ extra
    /\ (extra = [] \/ exists d, rendered w failing = Ok d /\ extra = [d])
    /\ (Forall never_pauses (script t) -> _paused p' = false).
Proof.
  intros Herr.
  destruct resumeProducing_trace
    as (p' & t' & sent & datas & rest & extra & Hp' & Htr' & Ht' & Hu'
        & Hsent & Hw' & Hb' & Hcase & Hs').
  destruct Hcase as [(_ & _ & Hsame) | (failing & e & Hpend & He & Hex)].
  - contradiction.
  - exists p', t', sent, failing, rest, datas, extra, e.
    repeat split; assumption.
Qed.

(** C7, as the code has it: a run of [resumeProducing] delivers records from
    the head of the buffer, and each delivered record accounts for exactly
    two consecutive [write] calls, the first with the whole UTF-8 rendering
    and the second with the single newline byte, so that the byte stream is
    the rendering followed by one newline per record.  Only a round that
    fails can add one more call, holding the rendering of the record it
    lost. *)
Theorem resumeProducing_writes_lines :
  exists t' sent datas extra,
    nth_error (transports (snd (resumeProducing w))) (transport p) = Some t'
    /\ Forall2 (fun record d => rendered w record = Ok d) sent datas
    /\ written t' = written t ++ flat_map (fun d => [d; newline]) datas ++ extra
    /\ List.concat (written t')
       = List.concat (written t) ++ List.concat (map (fun d => d ++ newline) datas)
           ++ List.concat extra
    /\ ((_buffer w = sent ++ _buffer (snd (resumeProducing w)) /\ extra = [])
        \/ (exists failing,
              _buffer w = sent ++ failing :: _buffer (snd (resumeProducing w))
              /\ stderr (snd (resumeProducing w)) <> stderr w
              /\ (extra = [] \/ exists d, rendered w failing = Ok d /\ extra = [d]))).
Proof.
  destruct resumeProducing_trace
    as (p' & t' & sent & datas & rest & extra & Hp' & Htr' & Ht' & Hu'
        & Hsent & Hw' & Hb' & Hcase & Hs').
  exists t', sent, datas, extra.
  split; [exact Ht'|].
  split; [exact Hsent|].
  split; [exact Hw'|].
  split.
  { rewrite Hw', !concat_app. do 2 f_equal.
    clear. induction datas as [|d datas IH]; [reflexivity|].
    cbn. rewrite IH, <- app_assoc. reflexivity. }
  rewrite Hb'.
  destruct Hcase as [(Hpend & Hex & _) | (failing & e & Hpend & He & Hex)].
  - left. split; assumption.
  - right. exists failing. split; [exact Hpend|]. split; [|exact Hex].
    rewrite He. intros E. apply (f_equal (@List.length _)) in E.
    rewrite length_app in E. simpl in E. lia.
Qed.

End Resume.

(** ** Failure while writing *)

Lemma resumeProducing_failure_stops_loop_witness :
  exists p', _producer (snd (resumeProducing refused_handler)) = Some p'
             /\ _paused p' = false.
Proof.
  destruct (resumeProducing_failure_stops_loop refused_handler
              (mkLogProducer 0 true true)
              (mkTransport true [bytes_of_string "first"; newline] [Refuse]))
    as (p' & t' & sent & failing & rest & datas & extra & e & _ & _ & _ & _
        & Hp' & _ & _ & _ & Hs).
  - reflexivity.
  - reflexivity.
  - vm_compute. discriminate.
  - exists p'. split; [exact Hp'|]. apply Hs.
    constructor; [unfold never_pauses; discriminate | constructor].
Defined.

(** C6 as worded fails: when the transport resumes the producer and then
    refuses the [write], the traceback is printed and the producer is left
    unpaused. *)
Lemma failed_write_leaves_producer_unpaused :
  ~ left_paused_after_failure refused_handler.
Proof.
  unfold left_paused_after_failure. intros H.
  destruct H as (p' & Hp' & Hpaused); [vm_compute; discriminate|].
  vm_compute in Hp'. injection Hp' as <-. discriminate Hpaused.
Qed.

(** ** Framing on the wire *)

Lemma resumeProducing_writes_lines_witness :
  exists t' sent datas extra,
    nth_error (transports (snd (resumeProducing resumable_handler))) 0 = Some t'
    /\ Forall2 (fun record d => rendered resumable_handler record = Ok d) sent datas
    /\ written t'
       = [bytes_of_string "first"; newline]
           ++ flat_map (fun d => [d; newline]) datas ++ extra
    /\ List.concat (written t')
       = bytes_of_string "first" ++ newline
           ++ List.concat (map (fun d => d ++ newline) datas) ++ List.concat extra
    /\ ((_buffer resumable_handler
         = sent ++ _buffer (snd (resumeProducing resumable_handler))
         /\ extra = [])
        \/ (exists failing,
              _buffer resumable_handler
              = sent ++ failing :: _buffer (snd (resumeProducing resumable_handler))
              /\ stderr (snd (resumeProducing resumable_handler))
                 <> stderr resumable_handler
              /\ (extra = []
                  \/ exists d, rendered resumable_handler failing = Ok d
                               /\ extra = [d]))).
Proof.
  exact (resumeProducing_writes_lines resumable_handler
           (mkLogProducer 0 true true)
           (mkTransport true [bytes_of_string "first"; newline] [])
           eq_refl eq_refl).
Defined.

(** C7 as worded fails: when the transport resumes the producer, the record
    of scenario D reaches it in two [write] calls, not one. *)
Lemma record_and_newline_are_two_write_calls :
  ~ writes_each_record_in_one_call resumable_handler.
Proof.
  unfold writes_each_record_in_one_call.
  intros (sent & calls & Hb & Hc & HF).
  vm_compute in Hc. injection Hc as <-.
  inversion HF as [|record call sent' calls' _ HF' E1 E2]; subst.
  inversion HF' as [|record' call' sent'' calls'' _ HF'' E1 E2]; subst.
  vm_compute in Hb. discriminate Hb.
Qed.

(** ** What the connection code leaves alone *)

Lemma steady_refl (w : World) : steady w w.
Proof. unfold steady. repeat split; try reflexivity. exists []. reflexivity. Qed.

Lemma steady_trans (w1 w2 w3 : World) :
  steady w1 w2 -> steady w2 w3 -> steady w1 w3.
Proof.
  unfold steady.
  intros (? & ? & ? & ? & ? & ? & ? & s1 & E1) (? & ? & ? & ? & ? & ? & ? & s2 & E2).
  repeat split; try congruence.
  exists (s1 ++ s2). rewrite E1, E2, app_assoc. reflexivity.
Qed.

Lemma untouched_steady (w w' : World) :
  untouched w w' -> (exists sent, _buffer w = sent ++ _buffer w') -> steady w w'.
Proof.
  unfold untouched, steady. intros (? & ? & ? & ? & ? & ? & ? & ?) Hs.
  repeat split; assumption.
Qed.

Ltac steady_by_fields :=
  unfold steady; cbn; repeat split; try reflexivity; exists []; reflexivity.

Lemma steady_set_producer (p : option LogProducer) (w : World) :
  steady w (set_producer p w).
Proof. steady_by_fields. Qed.

Lemma steady_set_connection_waiter (d : option Deferred) (w : World) :
  steady w (set_connection_waiter d w).
Proof. steady_by_fields. Qed.

Lemma steady_on_producer (f : LogProducer -> LogProducer) (w : World) :
  steady w (on_producer f w).
Proof.
  unfold on_producer. destruct (_producer w); [steady_by_fields | apply steady_refl].
Qed.

Lemma produce_no_transport (pending : deque) (w : World) :
  transport_connected w = false -> produce pending w = (Ok tt, w).
Proof.
  intros H. destruct pending; [reflexivity|].
  rewrite produce_cons, H, andb_false_r. reflexivity.
Qed.

Lemma resumeProducing_steady (w : World) :
  steady w (snd (resumeProducing w))
  /\ _connection_waiter (snd (resumeProducing w)) = _connection_waiter w.
Proof.
  destruct (_producer w) as [p|] eqn:Hp.
  - destruct (nth_error (transports w) (transport p)) as [t|] eqn:Ht.
    + destruct (resumeProducing_trace w p t Hp Ht)
        as (p' & t' & sent & datas & rest & extra & Hp' & Htr' & Ht' & Hu'
            & Hsent & Hw' & Hb' & Hcase & Hs').
      split.
      * apply untouched_steady; [exact Hu'|]. rewrite Hb'.
        destruct Hcase as [(Hpend & _) | (failing & e & Hpend & _)].
        -- exists sent. exact Hpend.
        -- exists (sent ++ [failing]). rewrite Hpend, <- app_assoc. reflexivity.
      * destruct Hu' as (_ & _ & _ & _ & Hwait & _). exact Hwait.
    + rewrite (resumeProducing_unfold w p Hp).
      destruct (_handler p).
      * rewrite produce_no_transport.
        -- split; [apply steady_set_producer | reflexivity].
        -- unfold transport_connected. cbn. rewrite Ht. reflexivity.
      * split; [apply steady_set_producer | reflexivity].
  - assert (E : resumeProducing w = (Raise AssertionError, w)).
    { unfold resumeProducing, bind, modify, gets, raise, on_producer.
      rewrite Hp. cbn. rewrite Hp. reflexivity. }
    rewrite E. split; [apply steady_refl | reflexivity].
Qed.

Lemma writer_steady (r : option nat) (w : World) :
  steady w (snd (writer r w)).
Proof.
  unfold writer, stopProducing, bind, gets, modify, raise.
  destruct r as [tid|]; [|destruct (_producer w); apply steady_refl].
  destruct (_producer w) as [prod|] eqn:Hp;
    [destruct (Nat.eqb tid (transport prod))|];
    match goal with
    | |- context [resumeProducing ?x] =>
        assert (H0 : steady w x)
          by first
               [ apply steady_refl
               | apply steady_set_producer
               | eapply steady_trans;
                   [apply steady_on_producer | apply steady_set_producer] ];
        pose proof (resumeProducing_steady x) as [Hs _];
        destruct (resumeProducing x) as [[[]|e] w1]
    end;
    cbn [snd] in *;
    try exact (steady_trans _ _ _ H0 Hs);
    exact (steady_trans _ _ _ (steady_trans _ _ _ H0 Hs)
             (steady_set_connection_waiter None w1)).
Qed.

Lemma writer_None (w : World) : writer None w = (Raise AttributeError, w).
Proof. unfold writer, bind, gets, raise. destruct (_producer w); reflexivity. Qed.

(** The three ways through [_connect]. *)
Lemma connect_cases (w : World) :
  _connect w
  = (Ok tt,
     match _connection_waiter w, conn (_service w) with
     | Some _, _ => w
     | None, Connecting n =>
         set_connection_waiter (Some Waiting) (set_conn (Connecting (S n)) w)
     | None, Connected tid =>
         snd (writer (Some tid) (set_connection_waiter (Some Called) w))
     end).
Proof.
  unfold _connect, bind, gets, modify, ret, run_callback.
  destruct (_connection_waiter w); [reflexivity|].
  destruct (conn (_service w)); reflexivity.
Qed.

Ltac calm_by_fields :=
  unfold calm; cbn; repeat split; try reflexivity; exists []; reflexivity.

Lemma calm_refl (w : World) : calm w w.
Proof. calm_by_fields. Qed.

Lemma calm_trans (w1 w2 w3 : World) : calm w1 w2 -> calm w2 w3 -> calm w1 w3.
Proof.
  unfold calm. intros (? & ? & s1 & E1) (? & ? & s2 & E2).
  repeat split; try congruence.
  exists (s1 ++ s2). rewrite E1, E2, app_assoc. reflexivity.
Qed.

Lemma steady_calm (w w' : World) : steady w w' -> calm w w'.
Proof.
  unfold steady, calm. intros (_ & _ & ? & _ & ? & _ & _ & ?).
  repeat split; assumption.
Qed.

Lemma calm_bounded (w w' : World) :
  calm w w' ->
  len (_buffer w) <= maximum_buffer w ->
  len (_buffer w') <= maximum_buffer w'.
Proof.
  intros (Hm & _ & sent & Hb) H. rewrite Hm.
  rewrite Hb, len_app in H. pose proof (len_nonneg sent). lia.
Qed.

Lemma connect_calm (w : World) : calm w (snd (_connect w)).
Proof.
  rewrite connect_cases. cbn [snd].
  destruct (_connection_waiter w); [apply calm_refl|].
  destruct (conn (_service w)) as [n|tid]; [calm_by_fields|].
  apply steady_calm.
  eapply steady_trans; [apply (steady_set_connection_waiter (Some Called))|].
  apply writer_steady.
Qed.

Lemma connect_ok (w : World) : fst (_connect w) = Ok tt.
Proof. rewrite connect_cases. reflexivity. Qed.

Lemma fail_unfold (r : exn) (w : World) :
  snd (fail r w)
  = snd (_connect (set_connection_waiter None (set_stderr (stderr w ++ [r]) w))).
Proof.
  unfold fail, bind, print_exc, modify.
  destruct (_connect _); reflexivity.
Qed.

Lemma failed_unfold (r : exn) (w : World) :
  snd (failed r w) = snd (fail r w).
Proof.
  unfold failed, bind, run_callback. rewrite writer_None. reflexivity.
Qed.

Lemma failed_calm (r : exn) (w : World) : calm w (snd (failed r w)).
Proof.
  rewrite failed_unfold, fail_unfold.
  eapply calm_trans; [|apply connect_calm]. calm_by_fields.
Qed.

Lemma repeat_callback_calm (m : M unit) :
  (forall w, calm w (snd (m w))) ->
  forall n w, calm w (repeat_callback n m w).
Proof.
  intros Hm n. induction n as [|n IH]; intros w; [apply calm_refl|].
  cbn [repeat_callback run_callback snd].
  eapply calm_trans; [apply Hm | apply IH].
Qed.

Lemma repeat_callback_service (m : M unit) :
  (forall w, _service (snd (m w)) = _service w) ->
  forall n w, _service (repeat_callback n m w) = _service w.
Proof.
  intros Hm n. induction n as [|n IH]; intros w; [reflexivity|].
  cbn [repeat_callback run_callback snd]. rewrite IH. apply Hm.
Qed.

Lemma writer_service (r : option nat) (w : World) :
  _service (snd (writer r w)) = _service w.
Proof. destruct (writer_steady r w) as (_ & _ & _ & _ & _ & H & _). exact H. Qed.

(** ** [emit] *)

Lemma emit_with_unfold (handle_pressure : M unit) (record : LogRecord) (w : World) :
  emit_with handle_pressure record w
  = match handle_pressure (appended record w) with
    | (Ok _, w1) => _connect w1
    | (Raise _, w1) =>
        _connect (set_logger (_logger w1 ++ [failure_message]) (set_buffer [] w1))
    end.
Proof.
  unfold emit_with, bind, try_except, modify, appended.
  destruct (handle_pressure _) as [[[]|e] w1]; reflexivity.
Qed.

Lemma emit_unfold (record : LogRecord) (w : World) :
  emit record w
  = _connect (set_buffer (shed (maximum_buffer w) (_buffer w ++ [record])) w).
Proof.
  unfold emit. rewrite emit_with_unfold, handle_pressure_run. reflexivity.
Qed.

Lemma shed_bound (m : Z) (b : deque) : 0 <= m -> len (shed m b) <= m.
Proof.
  intros Hm. unfold shed.
  destruct (len b <=? m) eqn:E0; [apply Z.leb_le; exact E0|].
  cbn zeta.
  destruct (len (filter (above DEBUG) b) <=? m) eqn:E1; [apply Z.leb_le; exact E1|].
  destruct (len (filter (above INFO) (filter (above DEBUG) b)) <=? m) eqn:E2;
    [apply Z.leb_le; exact E2|].
  apply Z.leb_gt in E2. pose proof (floor_half_bound m _ E2) as Hk.
  unfold len at 1. rewrite keep_ends_length by exact Hk.
  unfold range_count, floor_half in *.
  assert (0 <= m / 2) by (apply Z.div_pos; lia).
  assert (2 * (m / 2) <= m) by (apply Z.mul_div_le; lia).
  lia.
Qed.

Lemma emit_bounded (record : LogRecord) (w : World) :
  0 <= maximum_buffer w ->
  maximum_buffer (snd (emit record w)) = maximum_buffer w
  /\ len (_buffer (snd (emit record w))) <= maximum_buffer w.
Proof.
  intros Hm. rewrite emit_unfold.
  set (w1 := set_buffer _ w).
  pose proof (connect_calm w1) as Hc.
  assert (H1 : len (_buffer w1) <= maximum_buffer w1)
    by (apply shed_bound; exact Hm).
  pose proof (calm_bounded _ _ Hc H1) as H2.
  destruct Hc as (Hmax & _). split; [exact Hmax|].
  rewrite Hmax in H2. exact H2.
Qed.

Lemma emit_logs_no_failure (record : LogRecord) (w : World) :
  _logger (snd (emit record w)) = _logger w.
Proof.
  rewrite emit_unfold.
  destruct (connect_calm (set_buffer (shed (maximum_buffer w) (_buffer w ++ [record])) w))
    as (_ & Hl & _).
  exact Hl.
Qed.

(** ** Events *)

Lemma step_calm (ev : Event) (w : World) :
  (forall record, ev <> Emit record) -> calm w (step ev w).
Proof.
  intros Hev. unfold step.
  destruct ev as [record| sc | | | |]; [exfalso; apply (Hev record); reflexivity| | | | |];
    destruct (conn (_service w)) as [n|tid]; try apply calm_refl.
  - eapply calm_trans; [|apply repeat_callback_calm].
    + calm_by_fields.
    + intros w0. apply steady_calm, writer_steady.
  - eapply calm_trans; [|apply repeat_callback_calm].
    + calm_by_fields.
    + intros w0. apply failed_calm.
  - eapply calm_trans; [|calm_by_fields].
    eapply (calm_trans _
              (match nth_error (transports w) tid with
               | Some t => set_transports (replace_nth tid (disconnect t) (transports w)) w
               | None => w
               end)).
    + destruct (nth_error (transports w) tid); [calm_by_fields | apply calm_refl].
    + destruct (registered tid _); [|apply calm_refl].
      unfold stopProducing, modify. cbn [snd].
      apply steady_calm, steady_on_producer.
  - destruct (registered tid w); [|apply calm_refl].
    unfold pauseProducing, modify. cbn [snd].
    apply steady_calm, steady_on_producer.
  - destruct (registered tid w); [|apply calm_refl].
    apply steady_calm. apply resumeProducing_steady.
Qed.

Lemma step_bounded (ev : Event) (w : World) :
  0 <= maximum_buffer w ->
  len (_buffer w) <= maximum_buffer w ->
  maximum_buffer (step ev w) = maximum_buffer w
  /\ len (_buffer (step ev w)) <= maximum_buffer w.
Proof.
  intros Hm Hb.
  destruct ev as [record| sc | | | |];
    try (match goal with |- context [step ?ev w] =>
           assert (Hc : calm w (step ev w)) by (apply step_calm; discriminate);
           pose proof (calm_bounded _ _ Hc Hb) as H2;
           destruct Hc as (Hmax & _); rewrite Hmax in H2;
           split; [exact Hmax | exact H2]
         end).
  unfold step. apply emit_bounded. exact Hm.
Qed.

Lemma run_bounded (evs : list Event) :
  forall w : World,
  0 <= maximum_buffer w ->
  len (_buffer w) <= maximum_buffer w ->
  maximum_buffer (run evs w) = maximum_buffer w
  /\ len (_buffer (run evs w)) <= maximum_buffer w.
Proof.
  induction evs as [|ev evs IH]; intros w Hm Hb; [split; [reflexivity|exact Hb]|].
  cbn [run]. destruct (step_bounded ev w Hm Hb) as [Hmax Hb'].
  rewrite <- Hmax in Hb'.
  destruct (IH (step ev w)) as [H1 H2]; [lia | exact Hb' |].
  split; lia.
Qed.

Lemma one_attempt_connected (w : World) (tid : nat) :
  conn (_service w) = Connected tid -> one_attempt w.
Proof.
  intros H. unfold one_attempt, pending_attempts. rewrite H. split; [lia | reflexivity].
Qed.

Lemma connect_one_attempt (w : World) :
  one_attempt w -> one_attempt (snd (_connect w)).
Proof.
  intros H. pose proof H as [H1 H2]. rewrite connect_cases. cbn [snd].
  destruct (_connection_waiter w) as [d|] eqn:Hw; [exact H|].
  destruct (conn (_service w)) as [n|tid] eqn:Hc.
  - unfold pending_attempts in H2. rewrite Hc in H2.
    rewrite (H2 eq_refl). unfold one_attempt, pending_attempts. cbn.
    split; [lia | discriminate].
  - apply (one_attempt_connected _ tid).
    rewrite writer_service. cbn. exact Hc.
Qed.

Lemma one_attempt_same (w w' : World) :
  _service w' = _service w ->
  _connection_waiter w' = _connection_waiter w ->
  one_attempt w -> one_attempt w'.
Proof.
  unfold one_attempt, pending_attempts. intros -> ->. exact (fun H => H).
Qed.

Lemma step_one_attempt (ev : Event) (w : World) :
  one_attempt w -> one_attempt (step ev w).
Proof.
  intros H. unfold step.
  destruct ev as [record| sc | | | |].
  - rewrite emit_unfold. apply connect_one_attempt.
    apply (one_attempt_same w); [reflexivity | reflexivity | exact H].
  - destruct (conn (_service w)) as [n|tid] eqn:Hc; [|exact H].
    apply (one_attempt_connected _ (List.length (transports w))).
    rewrite repeat_callback_service by (intros; apply writer_service).
    reflexivity.
  - destruct (conn (_service w)) as [n|tid] eqn:Hc; [|exact H].
    destruct H as [H1 H2]. unfold pending_attempts in H1, H2. rewrite Hc in H1, H2.
    destruct n as [|[|n]]; [| |lia].
    + cbn [repeat_callback]. unfold one_attempt, pending_attempts. cbn.
      split; [lia | reflexivity].
    + cbn [repeat_callback run_callback snd]. rewrite failed_unfold, fail_unfold.
      apply connect_one_attempt.
      unfold one_attempt, pending_attempts. cbn. split; [lia | reflexivity].
  - destruct (conn (_service w)) as [n|tid] eqn:Hc; [exact H|].
    unfold one_attempt, pending_attempts. cbn. split; [lia | reflexivity].
  - destruct (conn (_service w)) as [n|tid] eqn:Hc; [exact H|].
    destruct (registered tid w); [|exact H].
    apply (one_attempt_connected _ tid).
    unfold pauseProducing, modify, on_producer. cbn [snd].
    destruct (_producer w); exact Hc.
  - destruct (conn (_service w)) as [n|tid] eqn:Hc; [exact H|].
    destruct (registered tid w); [|exact H].
    apply (one_attempt_connected _ tid).
    destruct (resumeProducing_steady w) as [(_ & _ & _ & _ & _ & Hs & _) _].
    rewrite Hs. exact Hc.
Qed.

Lemma run_one_attempt (evs : list Event) :
  forall w : World, one_attempt w -> one_attempt (run evs w).
Proof.
  induction evs as [|ev evs IH]; intros w H; [exact H|].
  cbn [run]. apply IH, step_one_attempt, H.
Qed.

Lemma init_state (ip_address : string -> result IPAddress) (h : string)
    (p m : Z) (r : option Reactor) (w : World) :
  __init__ ip_address h p m r = Ok w ->
  maximum_buffer w = m /\ _buffer w = [] /\ _producer w = None
  /\ _connection_waiter w = Some Waiting
  /\ conn (_service w) = Connecting 1
  /\ clock (_service w) = match r with Some x => x | None => GlobalReactor end.
Proof.
  unfold __init__.
  destruct (ip_address h) as [[| |]|[]]; try discriminate;
    try (destruct r; try discriminate);
    cbn; intros E; injection E as <-; cbn; repeat split; reflexivity.
Qed.

(** ** The bound on the buffer *)

(** C3: with a positive maximum, a pressure-relief pass returns normally and
    leaves at most the maximum, and exactly [2 * floor(maximum / 2)] records
    when it gets to the last stage.  A buffer within the maximum grows to at
    most one more by the append in [emit] and is back within the maximum when
    [emit] returns; so it is within the maximum after any sequence of
    events. *)
Theorem buffer_within_maximum (w : World) :
  let m := maximum_buffer w in
  0 < m ->
  (exists w',
     _handle_pressure w = (Ok tt, w')
     /\ maximum_buffer w' = m
     /\ len (_buffer w') <= m
     /\ (m < len (filter (above INFO) (filter (above DEBUG) (_buffer w))) ->
         len (_buffer w') = 2 * (m / 2)))
  /\ (len (_buffer w) <= m ->
      forall record,
        len (_buffer (appended record w)) = len (_buffer w) + 1
        /\ len (_buffer (snd (emit record w))) <= m)
  /\ (len (_buffer w) <= m ->
      forall evs, len (_buffer (run evs w)) <= m).
Proof.
  intros m Hm. split; [|split].
  - exists (set_buffer (shed m (_buffer w)) w).
    split; [apply handle_pressure_run|]. split; [reflexivity|].
    cbn [_buffer set_buffer]. split; [apply shed_bound; lia|].
    intros Hover.
    pose proof (filter_length_le (above INFO) (filter (above DEBUG) (_buffer w))).
    pose proof (filter_length_le (above DEBUG) (_buffer w)).
    unfold shed.
    replace (len (_buffer w) <=? m) with false by (symmetry; apply Z.leb_gt; lia).
    cbn zeta.
    replace (len (filter (above DEBUG) (_buffer w)) <=? m) with false
      by (symmetry; apply Z.leb_gt; lia).
    replace (len (filter (above INFO) (filter (above DEBUG) (_buffer w))) <=? m)
      with false by (symmetry; apply Z.leb_gt; lia).
    pose proof (floor_half_bound m _ Hover) as Hk.
    unfold len at 1. rewrite keep_ends_length by exact Hk.
    unfold range_count, floor_half.
    assert (0 <= m / 2) by (apply Z.div_pos; lia). lia.
  - intros Hb record. split.
    + unfold appended. cbn [_buffer set_buffer]. rewrite len_app. reflexivity.
    + apply emit_bounded. fold m. lia.
  - intros Hb evs. apply run_bounded; fold m; lia.
Qed.

Lemma buffer_within_maximum_witness :
  len (_buffer (run [Emit (record_at ERROR "a"); Emit (record_at INFO "b");
                     Emit (record_at ERROR "c"); Emit (record_at ERROR "d")]
                    (local_handler 2))) <= 2.
Proof.
  destruct (buffer_within_maximum (local_handler 2)) as (_ & _ & H).
  - vm_compute. reflexivity.
  - apply H. vm_compute. discriminate.
Defined.

(** ** The last stage cannot run dry *)

(** C10: the last stage is entered with more records than the maximum, and
    twice [floor(maximum / 2)] does not exceed the maximum; so each of its
    [popleft] and [pop] calls finds a record, and the stage does not raise. *)
Theorem cut_the_middle_never_underflows (m : Z) (b : deque) (w : World) :
  let k := range_count (floor_half m) in
  0 < m ->
  m < len b ->
  2 * floor_half m <= m
  /\ Z.of_nat k = floor_half m
  /\ (forall i, (i < k)%nat ->
        fst (move_head i b (set_buffer [] w)) = Ok (skipn i b)
        /\ exists x rest, popleft (skipn i b) = Ok (x, rest))
  /\ (forall j, (j < k)%nat ->
        fst (move_tail j (skipn k b) [] w)
        = Ok (firstn (List.length b - k - j) (skipn k b),
              rev (skipn (List.length b - k - j) (skipn k b)))
        /\ exists x rest,
             pop (firstn (List.length b - k - j) (skipn k b)) = Ok (x, rest))
  /\ fst (cut_the_middle m b w) = Ok tt
  /\ (forall record, _logger (snd (emit record w)) = _logger w).
Proof.
  intros k Hm Hover.
  pose proof (floor_half_bound m b Hover) as Hk. fold k in Hk.
  assert (H2 : 2 * floor_half m <= m)
    by (unfold floor_half; apply Z.mul_div_le; lia).
  assert (Hk' : Z.of_nat k = floor_half m).
  { unfold k, range_count. apply Z2Nat.id. unfold floor_half. apply Z.div_pos; lia. }
  assert (Hlt : (k + k < List.length b)%nat) by (unfold len in Hover; lia).
  split; [exact H2|]. split; [exact Hk'|]. split; [|split; [|split]].
  - intros i Hi. split.
    + rewrite move_head_ok by lia. reflexivity.
    + destruct (skipn i b) as [|x rest] eqn:E.
      * apply (f_equal (@List.length _)) in E. rewrite length_skipn in E.
        simpl in E. lia.
      * exists x, rest. reflexivity.
  - intros j Hj. split.
    + rewrite move_tail_partial by (rewrite length_skipn; lia).
      rewrite length_skipn. reflexivity.
    + apply pop_nonempty. intros E.
      apply (f_equal (@List.length _)) in E.
      rewrite length_firstn, length_skipn in E. simpl in E. lia.
  - rewrite cut_the_middle_ok by exact Hover. reflexivity.
  - intros record. apply emit_logs_no_failure.
Qed.

Lemma cut_the_middle_never_underflows_witness :
  fst (cut_the_middle 3
         [record_at WARNING "a"; record_at ERROR "b"; record_at WARNING "c";
          record_at CRITICAL "d"]
         (waiting_handler 3 [])) = Ok tt.
Proof.
  apply (cut_the_middle_never_underflows 3
           [record_at WARNING "a"; record_at ERROR "b"; record_at WARNING "c";
            record_at CRITICAL "d"] (waiting_handler 3 [])).
  - lia.
  - vm_compute; reflexivity.
Defined.

(** ** Scenario C *)

(** C4: a handler with maximum 10 that is sent twenty WARNING records one
    by one holds the first five and the last five, in order; connected
    afterwards, it writes exactly these ten lines. *)
Theorem twenty_warnings_keep_five_and_five :
  (forall text : nat -> pystr,
     _buffer (run (map (fun i => Emit (mkLogRecord WARNING (text i))) (seq 0 20))
                  (local_handler 10))
     = map (fun i => mkLogRecord WARNING (text i)) [0; 1; 2; 3; 4; 15; 16; 17; 18; 19]%nat)
  /\ _buffer (run (map (fun i => Emit (warn i)) (seq 0 20)) (local_handler 10))
     = map warn [0; 1; 2; 3; 4; 15; 16; 17; 18; 19]%nat
  /\ write_calls
       (run (map (fun i => Emit (warn i)) (seq 0 20) ++ [ConnectionMade []])
            (local_handler 10))
     = flat_map (fun i => [bytes_of_string (String.append "warn " (NilEmpty.string_of_uint (Nat.to_uint i))); newline])
         [0; 1; 2; 3; 4; 15; 16; 17; 18; 19]%nat
  /\ _buffer
       (run (map (fun i => Emit (warn i)) (seq 0 20) ++ [ConnectionMade []])
            (local_handler 10))
     = [].
Proof.
  split; [|split; [|split]].
  - intros text. vm_compute. reflexivity.
  - vm_compute. reflexivity.
  - vm_compute. reflexivity.
  - vm_compute. reflexivity.
Qed.

(** ** [emit] does not raise *)

(** C5: [emit] returns normally whatever the pressure-relief pass does; when
    the pass raises, [emit] ends with an empty buffer -- the record just
    appended is gone too -- and with the failure logged.  The pass of this
    handler is one such pass. *)
Theorem emit_never_raises (handle_pressure : M unit) (record : LogRecord) (w : World) :
  fst (emit_with handle_pressure record w) = Ok tt
  /\ fst (emit record w) = Ok tt
  /\ (forall e w1,
        handle_pressure (appended record w) = (Raise e, w1) ->
        _buffer (snd (emit_with handle_pressure record w)) = []
        /\ _logger (snd (emit_with handle_pressure record w))
           = _logger w1 ++ [failure_message]).
Proof.
  split; [|split].
  - rewrite emit_with_unfold.
    destruct (handle_pressure (appended record w)) as [[[]|e] w1]; apply connect_ok.
  - rewrite emit_unfold. apply connect_ok.
  - intros e w1 He. rewrite emit_with_unfold, He.
    destruct (connect_calm (set_logger (_logger w1 ++ [failure_message])
                              (set_buffer [] w1)))
      as (_ & Hl & sent & Hb).
    cbn [_buffer _logger set_logger set_buffer] in Hl, Hb.
    split; [|exact Hl].
    symmetry in Hb. apply app_eq_nil in Hb. apply Hb.
Qed.

Lemma emit_never_raises_witness :
  _buffer (snd (emit_with broken_pressure (record_at ERROR "x")
                  (waiting_handler 10 [record_at ERROR "y"]))) = []
  /\ _logger (snd (emit_with broken_pressure (record_at ERROR "x")
                     (waiting_handler 10 [record_at ERROR "y"])))
     = [failure_message].
Proof.
  destruct (emit_never_raises broken_pressure (record_at ERROR "x")
              (waiting_handler 10 [record_at ERROR "y"])) as (_ & _ & H).
  apply (H IndexError (appended (record_at ERROR "x")
                         (waiting_handler 10 [record_at ERROR "y"]))).
  reflexivity.
Defined.

(** ** One connection attempt at a time *)

(** C8, as the code has it: while an attempt is pending, [_connect] returns
    at once and changes nothing.  While connected it asks for no further
    connection either -- the service and the transports stay as they are --
    but with no waiter held it runs the writer callback on the live
    transport again, which resumes the producer.  A handler built by the
    constructor never has more than one Deferred waiting at the service. *)
Theorem connect_makes_no_second_attempt (w : World) :
  (_connection_waiter w <> None -> _connect w = (Ok tt, w))
  /\ (forall tid,
        conn (_service w) = Connected tid ->
        _service (snd (_connect w)) = _service w
        /\ List.length (transports (snd (_connect w))) = List.length (transports w)
        /\ (_connection_waiter w = None ->
            snd (_connect w)
            = snd (writer (Some tid) (set_connection_waiter (Some Called) w))))
  /\ (one_attempt w -> forall evs, (pending_attempts (run evs w) <= 1)%nat)
  /\ (forall ip_address h p m r w0,
        __init__ ip_address h p m r = Ok w0 ->
        forall evs, (pending_attempts (run evs w0) <= 1)%nat).
Proof.
  split; [|split; [|split]].
  - intros H. rewrite connect_cases.
    destruct (_connection_waiter w); [reflexivity | contradiction].
  - intros tid Hc. rewrite connect_cases. cbn [snd]. rewrite Hc.
    destruct (_connection_waiter w) as [d|].
    + split; [reflexivity|]. split; [reflexivity|]. discriminate.
    + destruct (writer_steady (Some tid) (set_connection_waiter (Some Called) w))
        as (_ & _ & _ & _ & _ & Hs & Hl & _).
      split; [exact Hs|]. split; [exact Hl|]. reflexivity.
  - intros H evs. apply (run_one_attempt evs w H).
  - intros ip_address h p m r w0 Hinit evs.
    destruct (init_state _ _ _ _ _ _ Hinit) as (_ & _ & _ & Hw & Hc & _).
    apply (run_one_attempt evs w0).
    unfold one_attempt, pending_attempts. rewrite Hc, Hw.
    split; [lia | discriminate].
Qed.

Lemma connect_makes_no_second_attempt_witness :
  _connect (local_handler 10) = (Ok tt, local_handler 10)
  /\ (pending_attempts
        (run [Emit (record_at ERROR "a"); ConnectionFailed; Emit (record_at ERROR "b");
              ConnectionMade []; ConnectionLost; Emit (record_at ERROR "c")]
             (local_handler 10)) <= 1)%nat.
Proof.
  destruct (connect_makes_no_second_attempt (local_handler 10))
    as (H1 & _ & H3 & _).
  split.
  - apply H1. vm_compute. discriminate.
  - apply H3. vm_compute. split; [lia | discriminate].
Defined.

(** C8 as worded fails while connected: [_connect] on a connected handler
    with a record in its buffer flushes the buffer. *)
Lemma connect_while_connected_flushes :
  ~ connect_is_noop_when_busy hello_handler.
Proof.
  unfold connect_is_noop_when_busy. intros H.
  assert (E : _buffer (snd (_connect hello_handler)) = _buffer hello_handler).
  { rewrite H; [reflexivity|]. right. exists 0%nat. reflexivity. }
  vm_compute in E. discriminate E.
Qed.

(** ** The constructor *)

Lemma init_ip_literal (ip_address : string -> result IPAddress) (h : string)
    (p m : Z) (r : option Reactor) :
  let reactor := match r with Some x => x | None => GlobalReactor end in
  (ip_address h = Ok IPv4Address ->
   exists w, __init__ ip_address h p m r = Ok w
             /\ endpoint (_service w) = TCP4ClientEndpoint reactor h p)
  /\ (ip_address h = Ok IPv6Address ->
      exists w, __init__ ip_address h p m r = Ok w
                /\ endpoint (_service w) = TCP6ClientEndpoint reactor h p)
  /\ (ip_address h = Raise ValueError -> r = None ->
      exists w, __init__ ip_address h p m r = Ok w
                /\ endpoint (_service w) = HostnameEndpoint GlobalReactor h p).
Proof.
  intros reactor. unfold __init__. split; [|split].
  - intros ->. eexists. split; reflexivity.
  - intros ->. eexists. split; reflexivity.
  - intros -> ->. eexists. split; reflexivity.
Qed.

(** C9 fails on the code: for a host that is not an IP literal, a
    constructor call that passes a reactor raises [UnboundLocalError],
    because the host name branch reads the local name [reactor], which is
    bound only when no reactor is passed. *)
Theorem init_hostname_with_reactor_raises
    (ip_address : string -> result IPAddress) (h : string) (p m : Z) (r : Reactor) :
  ip_address h = Raise ValueError ->
  __init__ ip_address h p m (Some r) = Raise UnboundLocalError.
Proof.
  intros H. unfold __init__. rewrite H. reflexivity.
Qed.

Lemma init_hostname_with_reactor_raises_witness :
  __init__ sample_ip_address "localhost" 9000 1000 (Some (InjectedReactor 0))
  = Raise UnboundLocalError.
Proof.
  apply (init_hostname_with_reactor_raises sample_ip_address "localhost" 9000 1000
           (InjectedReactor 0)).
  reflexivity.
Defined.

(** ** The scenarios of [tests/logging/test_remote_handler.py] *)

(** [test_log_output]: one line, with a single trailing newline. *)
Example test_log_output :
  List.concat
    (write_calls
       (run [Emit (record_at INFO "Hello there, wally!"); ConnectionMade []]
            (local_handler 1000)))
  = bytes_of_string "Hello there, wally!" ++ newline.
Proof. vm_compute. reflexivity. Qed.

(** [test_log_backpressure_debug]: only the seven INFO records are left. *)
Example test_log_backpressure_debug :
  _buffer
    (run (map (fun i => Emit (record_at DEBUG "debug")) (seq 0 3)
          ++ map (fun i => Emit (record_at INFO "info")) (seq 0 7)
          ++ [Emit (record_at DEBUG "too much debug")])
         (local_handler 10))
  = repeat (record_at INFO "info") 7.
Proof. vm_compute. reflexivity. Qed.

(** [test_log_backpressure_info]: only the ten WARNING records are left. *)
Example test_log_backpressure_info :
  _buffer
    (run (map (fun i => Emit (record_at DEBUG "debug")) (seq 0 3)
          ++ map (fun i => Emit (record_at WARNING "warn")) (seq 0 10)
          ++ map (fun i => Emit (record_at INFO "info")) (seq 0 3)
          ++ [Emit (record_at DEBUG "too much debug")])
         (local_handler 10))
  = repeat (record_at WARNING "warn") 10.
Proof. vm_compute. reflexivity. Qed.

(** [str.encode("utf8")] on one, two, three and four byte code points. *)
Example utf8_encode_sample :
  encode_utf8 [65; 233; 8364; 128512]%N
  = Ok ["A"; "195"; "169"; "226"; "130"; "172"; "240"; "159"; "152"; "128"]%byte
  /\ encode_utf8 [55296]%N = Raise UnicodeEncodeError.
Proof. split; reflexivity. Qed.

(** * Further properties *)

(** ** Order in the buffer *)

Lemma subsequence_refl {A : Type} (l : list A) : subsequence l l.
Proof. induction l; [apply subsequence_nil | apply subsequence_keep; assumption]. Qed.

Lemma subsequence_nil_l {A : Type} (l : list A) : subsequence [] l.
Proof. induction l; [apply subsequence_nil | apply subsequence_skip; assumption]. Qed.

Lemma subsequence_trans {A : Type} (l1 l2 l3 : list A) :
  subsequence l1 l2 -> subsequence l2 l3 -> subsequence l1 l3.
Proof.
  intros H12 H23. revert l1 H12.
  induction H23 as [|x l2 l3 _ IH|x l2 l3 _ IH]; intros l1 H12.
  - exact H12.
  - apply subsequence_skip. apply IH. exact H12.
  - inversion H12; subst.
    + apply subsequence_skip. apply IH. assumption.
    + apply subsequence_keep. apply IH. assumption.
Qed.

Lemma subsequence_app {A : Type} (a a' b b' : list A) :
  subsequence a a' -> subsequence b b' -> subsequence (a ++ b) (a' ++ b').
Proof.
  intros Ha Hb. induction Ha as [|x l1 l2 _ IH|x l1 l2 _ IH]; simpl.
  - exact Hb.
  - apply subsequence_skip. exact IH.
  - apply subsequence_keep. exact IH.
Qed.

Lemma subsequence_filter {A : Type} (p : A -> bool) (l : list A) :
  subsequence (filter p l) l.
Proof.
  induction l as [|x l IH]; simpl; [apply subsequence_nil|].
  destruct (p x); [apply subsequence_keep | apply subsequence_skip]; exact IH.
Qed.

Lemma subsequence_skipn {A : Type} (n : nat) (l : list A) :
  subsequence (skipn n l) l.
Proof.
  revert n. induction l as [|x l IH]; intros [|n]; simpl.
  - apply subsequence_nil.
  - apply subsequence_nil.
  - apply subsequence_refl.
  - apply subsequence_skip. apply IH.
Qed.

Lemma subsequence_suffix {A : Type} (sent l : list A) :
  subsequence l (sent ++ l).
Proof.
  induction sent; simpl; [apply subsequence_refl | apply subsequence_skip; assumption].
Qed.

Lemma subsequence_keep_ends (k : nat) (b : deque) :
  (k + k <= List.length b)%nat -> subsequence (keep_ends k b) b.
Proof.
  intros H. unfold keep_ends.
  apply (subsequence_trans _ (firstn k b ++ skipn k b)).
  - apply subsequence_app; [apply subsequence_refl|].
    replace (List.length b - k)%nat with ((List.length b - k - k) + k)%nat by lia.
    rewrite <- skipn_skipn. apply subsequence_skipn.
  - rewrite firstn_skipn. apply subsequence_refl.
Qed.

Lemma subsequence_shed (m : Z) (b : deque) : subsequence (shed m b) b.
Proof.
  unfold shed.
  destruct (len b <=? m); [apply subsequence_refl|]. cbn zeta.
  destruct (len (filter (above DEBUG) b) <=? m); [apply subsequence_filter|].
  destruct (len (filter (above INFO) (filter (above DEBUG) b)) <=? m) eqn:E.
  - eapply subsequence_trans; apply subsequence_filter.
  - apply Z.leb_gt in E.
    eapply subsequence_trans; [apply subsequence_keep_ends, floor_half_bound, E|].
    eapply subsequence_trans; apply subsequence_filter.
Qed.

(** X1: A pressure-relief pass only leaves records out: what it keeps is in the
    order it was in, and nothing is added or repeated. *)
Theorem handle_pressure_keeps_order (w : World) :
  subsequence (_buffer (snd (_handle_pressure w))) (_buffer w).
Proof.
  rewrite handle_pressure_run. cbn [snd _buffer set_buffer].
  apply subsequence_shed.
Qed.

Lemma calm_subsequence (w w' : World) :
  calm w w' -> subsequence (_buffer w') (_buffer w).
Proof.
  intros (_ & _ & sent & E). rewrite E. apply subsequence_suffix.
Qed.

Lemma step_subsequence (ev : Event) (w : World) :
  subsequence (_buffer (step ev w)) (_buffer w ++ emitted [ev]).
Proof.
  destruct ev as [record| sc | | | |];
    try (cbn [emitted]; rewrite app_nil_r; apply calm_subsequence, step_calm;
         discriminate).
  cbn [emitted]. unfold step. rewrite emit_unfold.
  eapply subsequence_trans; [apply calm_subsequence, connect_calm|].
  cbn [_buffer set_buffer]. apply subsequence_shed.
Qed.

Lemma emitted_cons (ev : Event) (evs : list Event) :
  emitted (ev :: evs) = emitted [ev] ++ emitted evs.
Proof. destruct ev; reflexivity. Qed.

(** X2: Whatever happens, the buffer holds records that were in it or were
    emitted since, each at most once and in the order of their arrival. *)
Theorem buffer_follows_arrival_order (evs : list Event) :
  forall w : World,
  subsequence (_buffer (run evs w)) (_buffer w ++ emitted evs).
Proof.
  induction evs as [|ev evs IH]; intros w.
  - cbn. rewrite app_nil_r. apply subsequence_refl.
  - cbn [run]. rewrite emitted_cons, app_assoc.
    eapply subsequence_trans; [apply IH|].
    apply subsequence_app; [apply step_subsequence | apply subsequence_refl].
Qed.

(** ** More on the pressure-relief pass *)

Lemma subsequence_In {A : Type} (l1 l2 : list A) (x : A) :
  subsequence l1 l2 -> In x l1 -> In x l2.
Proof.
  intros H. induction H as [|y l1 l2 _ IH|y l1 l2 _ IH]; intros Hx.
  - exact Hx.
  - right. apply IH. exact Hx.
  - destruct Hx as [->|Hx]; [left; reflexivity | right; apply IH; exact Hx].
Qed.

Lemma In_above (lvl : Z) (b : deque) (r : LogRecord) :
  In r (filter (above lvl) b) -> lvl < levelno r.
Proof.
  intros H. apply filter_In in H. destruct H as [_ H].
  unfold above in H. apply Z.ltb_lt. exact H.
Qed.

Lemma shed_cases (m : Z) (b : deque) :
  shed m b = b
  \/ shed m b = filter (above DEBUG) b
  \/ (subsequence (shed m b) (filter (above INFO) b)
      /\ (len (filter (above INFO) b) <= m -> shed m b = filter (above INFO) b)).
Proof.
  unfold shed.
  destruct (len b <=? m); [left; reflexivity|]. cbn zeta.
  destruct (len (filter (above DEBUG) b) <=? m); [right; left; reflexivity|].
  right. right.
  rewrite (filter_above_twice DEBUG INFO) by (unfold DEBUG, INFO; lia).
  destruct (len (filter (above INFO) b) <=? m) eqn:E.
  - split; [apply subsequence_refl | reflexivity].
  - apply Z.leb_gt in E. split; [|lia].
    apply subsequence_keep_ends, floor_half_bound, E.
Qed.

(** X3: The shedding precedence: a record at or below DEBUG is left after a pass
    only if the pass dropped nothing, and a record at or below INFO only if
    the pass dropped nothing above DEBUG. *)
Theorem handle_pressure_precedence (w : World) (r : LogRecord) :
  In r (_buffer (snd (_handle_pressure w))) ->
  (levelno r <= DEBUG -> _buffer (snd (_handle_pressure w)) = _buffer w)
  /\ (levelno r <= INFO ->
      filter (above DEBUG) (_buffer (snd (_handle_pressure w)))
      = filter (above DEBUG) (_buffer w)).
Proof.
  rewrite handle_pressure_run. cbn [snd _buffer set_buffer].
  set (m := maximum_buffer w). set (b := _buffer w). intros Hin.
  destruct (shed_cases m b) as [E | [E | [Hsub _]]].
  - rewrite E. split; reflexivity.
  - rewrite E in *. split.
    + intros Hr. apply In_above in Hin. lia.
    + intros _. apply (filter_above_twice DEBUG DEBUG). lia.
  - pose proof (In_above INFO b r (subsequence_In _ _ r Hsub Hin)) as Hr.
    unfold DEBUG, INFO in *. split; intros; lia.
Qed.

Lemma handle_pressure_precedence_witness :
  _buffer (snd (_handle_pressure
     (waiting_handler 2 [record_at DEBUG "a"; record_at ERROR "b"])))
  = [record_at DEBUG "a"; record_at ERROR "b"].
Proof.
  apply (handle_pressure_precedence
           (waiting_handler 2 [record_at DEBUG "a"; record_at ERROR "b"])
           (record_at DEBUG "a")).
  - vm_compute. left. reflexivity.
  - vm_compute. discriminate.
Defined.

Lemma shed_negative (m : Z) (b : deque) : m < 0 -> shed m b = [].
Proof.
  intros Hm. unfold shed.
  pose proof (len_nonneg b).
  pose proof (len_nonneg (filter (above DEBUG) b)).
  pose proof (len_nonneg (filter (above INFO) (filter (above DEBUG) b))).
  replace (len b <=? m) with false by (symmetry; apply Z.leb_gt; lia).
  cbn zeta.
  replace (len (filter (above DEBUG) b) <=? m) with false
    by (symmetry; apply Z.leb_gt; lia).
  replace (len (filter (above INFO) (filter (above DEBUG) b)) <=? m) with false
    by (symmetry; apply Z.leb_gt; lia).
  unfold keep_ends, range_count, floor_half.
  assert (m / 2 < 0) by (apply Z.div_lt_upper_bound; lia).
  replace (Z.to_nat (m / 2)) with 0%nat by lia.
  rewrite Nat.sub_0_r, skipn_all. reflexivity.
Qed.

Lemma shed_within (m : Z) (b : deque) : len b <= m -> shed m b = b.
Proof.
  intros H. unfold shed. apply Z.leb_le in H. rewrite H. reflexivity.
Qed.

(** X4: A second pressure-relief pass right after a pass changes nothing, for
    every maximum, the negative ones included. *)
Theorem handle_pressure_twice (w : World) :
  snd (_handle_pressure (snd (_handle_pressure w))) = snd (_handle_pressure w).
Proof.
  rewrite !handle_pressure_run. cbn [snd _buffer maximum_buffer set_buffer].
  assert (E : shed (maximum_buffer w) (shed (maximum_buffer w) (_buffer w))
              = shed (maximum_buffer w) (_buffer w)).
  { destruct (Z_lt_le_dec (maximum_buffer w) 0) as [Hneg|Hpos].
    - rewrite (shed_negative _ (_buffer w) Hneg). apply shed_negative. exact Hneg.
    - apply shed_within. apply shed_bound. exact Hpos. }
  rewrite E. reflexivity.
Qed.

(** X5: Records above INFO are shed only when they alone exceed the maximum:
    while they fit, a pass keeps every one of them, in order. *)
Theorem handle_pressure_keeps_what_fits (w : World) :
  len (filter (above INFO) (_buffer w)) <= maximum_buffer w ->
  filter (above INFO) (_buffer (snd (_handle_pressure w)))
  = filter (above INFO) (_buffer w).
Proof.
  rewrite handle_pressure_run. cbn [snd _buffer set_buffer]. intros H.
  destruct (shed_cases (maximum_buffer w) (_buffer w)) as [E | [E | [_ E]]].
  - rewrite E. reflexivity.
  - rewrite E. apply (filter_above_twice DEBUG INFO). unfold DEBUG, INFO. lia.
  - rewrite (E H). apply (filter_above_twice INFO INFO). lia.
Qed.

Lemma handle_pressure_keeps_what_fits_witness :
  filter (above INFO)
    (_buffer (snd (_handle_pressure
       (waiting_handler 2 [record_at DEBUG "a"; record_at ERROR "b";
                           record_at INFO "c"; record_at WARNING "d"]))))
  = [record_at ERROR "b"; record_at WARNING "d"].
Proof.
  apply (handle_pressure_keeps_what_fits
           (waiting_handler 2 [record_at DEBUG "a"; record_at ERROR "b";
                               record_at INFO "c"; record_at WARNING "d"])).
  vm_compute. discriminate.
Defined.

Lemma filter_snoc {A : Type} (p : A -> bool) (l : list A) (x : A) :
  p x = true -> filter p (l ++ [x]) = filter p l ++ [x].
Proof.
  intros H. rewrite filter_app. simpl. rewrite H. reflexivity.
Qed.

(** X6: With a maximum of two or more, the record that [emit] has just appended
    outlasts the pressure-relief pass if it is above INFO: it is still the
    last record of the buffer. *)
Theorem newest_record_outlasts_pass (w : World) (record : LogRecord) :
  2 <= maximum_buffer w ->
  INFO < levelno record ->
  exists front,
    _buffer (snd (_handle_pressure (appended record w))) = front ++ [record].
Proof.
  intros Hm Hlvl. rewrite handle_pressure_run.
  cbn [snd _buffer maximum_buffer set_buffer appended].
  set (m := maximum_buffer w). set (b := _buffer w).
  assert (HD : above DEBUG record = true)
    by (unfold above; apply Z.ltb_lt; unfold DEBUG, INFO in *; lia).
  assert (HI : above INFO record = true) by (unfold above; apply Z.ltb_lt; exact Hlvl).
  unfold shed.
  destruct (len (b ++ [record]) <=? m); [exists b; reflexivity|]. cbn zeta.
  rewrite (filter_snoc _ _ _ HD).
  destruct (len (filter (above DEBUG) b ++ [record]) <=? m);
    [eexists; reflexivity|].
  rewrite (filter_snoc _ _ _ HI).
  set (x := filter (above INFO) (filter (above DEBUG) b)).
  destruct (len (x ++ [record]) <=? m) eqn:E; [eexists; reflexivity|].
  apply Z.leb_gt in E. pose proof (floor_half_bound m _ E) as Hk.
  unfold keep_ends. set (k := range_count (floor_half m)) in *.
  assert (Hk1 : (1 <= k)%nat).
  { unfold k, range_count, floor_half.
    assert (1 <= m / 2) by (apply Z.div_le_lower_bound; lia). lia. }
  rewrite length_app in *. cbn [List.length] in *.
  exists (firstn k (x ++ [record]) ++ skipn (List.length x + 1 - k) x).
  rewrite skipn_app.
  replace (List.length x + 1 - k - List.length x)%nat with 0%nat by lia.
  cbn [skipn]. rewrite app_assoc. reflexivity.
Qed.

Lemma newest_record_outlasts_pass_witness :
  exists front,
    _buffer (snd (_handle_pressure
       (appended (record_at ERROR "new")
          (waiting_handler 2 [record_at WARNING "a"; record_at WARNING "b"]))))
    = front ++ [record_at ERROR "new"].
Proof.
  apply (newest_record_outlasts_pass
           (waiting_handler 2 [record_at WARNING "a"; record_at WARNING "b"])
           (record_at ERROR "new")).
  - vm_compute. discriminate.
  - vm_compute. reflexivity.
Defined.

(** X7: With a maximum of one or less the last stage keeps nothing: once more
    records above INFO are buffered than the maximum allows, a pass empties
    the buffer, the newest record included. *)
Theorem small_maximum_empties_buffer (w : World) :
  maximum_buffer w <= 1 ->
  maximum_buffer w < len (filter (above INFO) (_buffer w)) ->
  _buffer (snd (_handle_pressure w)) = [].
Proof.
  intros Hm Hover. rewrite handle_pressure_run. cbn [snd _buffer set_buffer].
  set (m := maximum_buffer w) in *. set (b := _buffer w) in *.
  pose proof (filter_length_le (above INFO) b).
  assert (E2 : filter (above INFO) (filter (above DEBUG) b) = filter (above INFO) b)
    by (apply filter_above_twice; unfold DEBUG, INFO; lia).
  pose proof (filter_length_le (above INFO) (filter (above DEBUG) b)) as H1.
  rewrite E2 in H1.
  unfold shed.
  replace (len b <=? m) with false by (symmetry; apply Z.leb_gt; lia).
  cbn zeta.
  replace (len (filter (above DEBUG) b) <=? m) with false
    by (symmetry; apply Z.leb_gt; lia).
  rewrite E2.
  replace (len (filter (above INFO) b) <=? m) with false
    by (symmetry; apply Z.leb_gt; lia).
  unfold keep_ends, range_count, floor_half.
  assert (m / 2 <= 0).
  { destruct (Z_lt_le_dec m 0).
    - assert (m / 2 < 0) by (apply Z.div_lt_upper_bound; lia). lia.
    - assert (m / 2 < 1) by (apply Z.div_lt_upper_bound; lia). lia. }
  replace (Z.to_nat (m / 2)) with 0%nat by lia.
  rewrite Nat.sub_0_r, skipn_all. reflexivity.
Qed.

Lemma small_maximum_empties_buffer_witness :
  _buffer (snd (_handle_pressure
     (waiting_handler 1 [record_at ERROR "old"; record_at CRITICAL "new"])))
  = [].
Proof.
  apply (small_maximum_empties_buffer
           (waiting_handler 1 [record_at ERROR "old"; record_at CRITICAL "new"])).
  - vm_compute. discriminate.
  - vm_compute. reflexivity.
Defined.

(** ** The states that events lead to *)

Lemma produce_ok (pending : deque) (w : World) :
  fst (produce pending w) = Ok tt.
Proof.
  destruct (transport_connected w) eqn:Hc.
  - unfold transport_connected in Hc.
    destruct (_producer w) as [p|] eqn:Hp; [|discriminate].
    destruct (nth_error (transports w) (transport p)) as [t|] eqn:Ht; [|discriminate].
    revert w p t Hp Ht Hc. induction pending as [|record rest IH]; intros w p t Hp Ht Hc.
    + reflexivity.
    + rewrite produce_cons.
      destruct (producing w && transport_connected w); [|reflexivity].
      destruct (send_next_spec record rest w p t Hp Ht)
        as (p1 & t1 & Hp1 & Htr1 & _ & Ht1 & Hc1 & _).
      destruct (send_next record rest w) as [[[|]|e] w1]; cbn [fst snd] in *;
        try reflexivity.
      rewrite <- Htr1 in Ht1. apply (IH w1 p1 t1 Hp1 Ht1). congruence.
  - rewrite produce_no_transport by exact Hc. reflexivity.
Qed.

Lemma produce_producer (pending : deque) (w : World) (p : LogProducer) :
  _producer w = Some p ->
  exists p', _producer (snd (produce pending w)) = Some p'
             /\ transport p' = transport p /\ _handler p' = _handler p.
Proof.
  intros Hp.
  destruct (nth_error (transports w) (transport p)) as [t|] eqn:Ht.
  - revert w p t Hp Ht. induction pending as [|record rest IH]; intros w p t Hp Ht.
    + exists p. cbn. repeat split; assumption.
    + rewrite produce_cons.
      destruct (producing w && transport_connected w);
        [|exists p; cbn; repeat split; assumption].
      destruct (send_next_spec record rest w p t Hp Ht)
        as (p1 & t1 & Hp1 & Htr1 & Hh1 & Ht1 & _).
      destruct (send_next record rest w) as [[[|]|e] w1]; cbn [fst snd] in *.
      * rewrite <- Htr1 in Ht1.
        destruct (IH w1 p1 t1 Hp1 Ht1) as (p' & Hp' & Htr' & Hh').
        exists p'. repeat split; congruence.
      * exists p1. repeat split; assumption.
      * exists p1. cbn. repeat split; assumption.
  - rewrite produce_no_transport.
    + exists p. repeat split; assumption.
    + unfold transport_connected. rewrite Hp, Ht. reflexivity.
Qed.

Lemma resumeProducing_producer (w : World) (p : LogProducer) :
  _producer w = Some p ->
  exists p', _producer (snd (resumeProducing w)) = Some p'
             /\ transport p' = transport p /\ _handler p' = _handler p.
Proof.
  intros Hp. rewrite (resumeProducing_unfold w p Hp).
  destruct (_handler p) eqn:Hh.
  - destruct (produce_producer (_buffer w) (set_producer (Some (resumed p)) w)
                (resumed p) eq_refl) as (p' & Hp' & Htr' & Hh').
    exists p'. cbn in *. repeat split; congruence.
  - exists (resumed p). cbn. repeat split; try reflexivity; exact Hh.
Qed.

Lemma resumeProducing_ok (w : World) (p : LogProducer) :
  _producer w = Some p -> _handler p = true -> fst (resumeProducing w) = Ok tt.
Proof.
  intros Hp Hh. rewrite (resumeProducing_unfold w p Hp), Hh. apply produce_ok.
Qed.

Lemma writer_unfold (tid : nat) (w : World) :
  fst (resumeProducing (rebound tid w)) = Ok tt ->
  writer (Some tid) w
  = (Ok tt, set_connection_waiter None (snd (resumeProducing (rebound tid w)))).
Proof.
  unfold writer, rebound, stopProducing, bind, gets, modify.
  destruct (_producer w) as [prod|]; [destruct (Nat.eqb tid (transport prod))|];
    intros H;
    match goal with
    | H : fst (resumeProducing ?x) = _ |- _ =>
        destruct (resumeProducing x) as [[[]|e] w1]; [reflexivity | discriminate H]
    end.
Qed.

Lemma rebound_same (tid : nat) (w : World) :
  untouched w (rebound tid w)
  /\ _buffer (rebound tid w) = _buffer w
  /\ transports (rebound tid w) = transports w
  /\ stderr (rebound tid w) = stderr w.
Proof.
  unfold rebound, on_producer.
  destruct (_producer w) as [prod|] eqn:Hp;
    [destruct (Nat.eqb tid (transport prod))|];
    unfold untouched; cbn; repeat split; reflexivity.
Qed.

Lemma rebound_producer (tid : nat) (w : World) :
  (forall p, _producer w = Some p -> transport p = tid -> _handler p = true) ->
  exists p, _producer (rebound tid w) = Some p
            /\ transport p = tid /\ _handler p = true.
Proof.
  intros H. unfold rebound.
  destruct (_producer w) as [prod|] eqn:Hp;
    [destruct (Nat.eqb tid (transport prod)) eqn:E|].
  - apply Nat.eqb_eq in E. exists prod.
    split; [exact Hp|]. split; [congruence|]. apply H; congruence.
  - eexists. cbn. repeat split; reflexivity.
  - eexists. cbn. repeat split; reflexivity.
Qed.

Lemma writer_sound (tid : nat) (w : World) :
  conn (_service w) = Connected tid ->
  (tid < List.length (transports w))%nat ->
  bound_producer w ->
  sound (snd (writer (Some tid) w)).
Proof.
  intros Hc Hlt [HB HC].
  destruct (rebound_producer tid w (fun p => HC tid p Hc)) as (p & Hp & Htr & Hh).
  destruct (rebound_same tid w) as ((_ & _ & _ & _ & _ & _ & Hs & Hl) & _).
  rewrite (writer_unfold tid w (resumeProducing_ok _ p Hp Hh)). cbn [snd].
  destruct (resumeProducing_steady (rebound tid w))
    as [(_ & _ & _ & _ & _ & Hs' & Hl' & _) _].
  destruct (resumeProducing_producer _ p Hp) as (p' & Hp' & Htr' & Hh').
  set (w2 := snd (resumeProducing (rebound tid w))) in *.
  assert (Hc2 : conn (_service w2) = Connected tid) by congruence.
  unfold sound, bound_producer. cbn. rewrite Hc2.
  split; [split; [reflexivity | lia]|].
  split.
  - intros q Hq. rewrite Hp' in Hq. injection Hq as <-. lia.
  - intros tid0 q _ Hq _. rewrite Hp' in Hq. injection Hq as <-. congruence.
Qed.

Lemma bound_producer_same (w w' : World) :
  _producer w' = _producer w ->
  transports w' = transports w ->
  conn (_service w') = conn (_service w) ->
  bound_producer w -> bound_producer w'.
Proof.
  unfold bound_producer. intros -> -> ->. exact (fun H => H).
Qed.

Lemma connect_sound (w : World) : sound w -> sound (snd (_connect w)).
Proof.
  intros Hs. rewrite connect_cases. cbn [snd].
  destruct (_connection_waiter w) as [d|] eqn:Hw; [exact Hs|].
  destruct Hs as [HA HB].
  destruct (conn (_service w)) as [n|tid] eqn:Hc.
  - destruct HA as [[_ ->] | [HA _]]; [|rewrite Hw in HA; discriminate].
    unfold sound. cbn. split; [right; split; reflexivity|].
    destruct HB as [HB _]. split; [exact HB|].
    cbn. intros tid p Hcon. discriminate Hcon.
  - destruct HA as [_ Hlt]. apply writer_sound; [exact Hc | exact Hlt|].
    apply (bound_producer_same w); try reflexivity. exact HB.
Qed.

Lemma connection_lost_facts (w : World) (tid : nat) :
  conn (_service w) = Connected tid ->
  conn (_service (step ConnectionLost w)) = Connecting 0
  /\ _connection_waiter (step ConnectionLost w) = _connection_waiter w
  /\ List.length (transports (step ConnectionLost w)) = List.length (transports w)
  /\ _buffer (step ConnectionLost w) = _buffer w
  /\ (forall p', _producer (step ConnectionLost w) = Some p' ->
                 exists q, _producer w = Some q /\ transport p' = transport q).
Proof.
  intros Hc. unfold step. rewrite Hc.
  set (w1 := match nth_error (transports w) tid with
             | Some t => set_transports (replace_nth tid (disconnect t) (transports w)) w
             | None => w
             end).
  assert (H1 : _producer w1 = _producer w /\ _connection_waiter w1 = _connection_waiter w
               /\ List.length (transports w1) = List.length (transports w)
               /\ _buffer w1 = _buffer w).
  { unfold w1. destruct (nth_error (transports w) tid); cbn;
      rewrite ?replace_nth_length; repeat split; reflexivity. }
  destruct H1 as (Hp1 & Hw1 & Hl1 & Hb1).
  set (w2 := if registered tid w1 then snd (stopProducing w1) else w1).
  assert (H2 : _connection_waiter w2 = _connection_waiter w1
               /\ transports w2 = transports w1
               /\ _buffer w2 = _buffer w1
               /\ (forall p', _producer w2 = Some p' ->
                      exists q, _producer w1 = Some q /\ transport p' = transport q)).
  { unfold w2, stopProducing, modify, on_producer.
    destruct (registered tid w1); cbn [snd].
    - destruct (_producer w1) as [q|] eqn:Hq; cbn.
      + repeat split; try reflexivity.
        intros p' Hp'. injection Hp' as <-. exists q. split; reflexivity.
      + repeat split; try reflexivity. rewrite Hq. intros p' Hp'. discriminate Hp'.
    - repeat split; try reflexivity. intros p' Hp'. exists p'. split; [exact Hp' | reflexivity]. }
  destruct H2 as (Hw2 & Ht2 & Hb2 & Hp2).
  cbn. split; [reflexivity|]. split; [congruence|]. split; [congruence|].
  split; [congruence|].
  intros p' Hp'. destruct (Hp2 p' Hp') as (q & Hq & Htr).
  exists q. split; [congruence | exact Htr].
Qed.

Lemma bound_on_producer (f : LogProducer -> LogProducer) (w : World) :
  (forall p, transport (f p) = transport p /\ _handler (f p) = _handler p) ->
  bound_producer w -> bound_producer (on_producer f w).
Proof.
  intros Hf [HB HC]. unfold on_producer.
  destruct (_producer w) as [q|] eqn:Hq; [|split; [rewrite Hq; exact HB | rewrite Hq; exact HC]].
  destruct (Hf q) as [Htr Hh].
  split.
  - intros p Hp. cbn in Hp |- *. injection Hp as <-. rewrite Htr. apply HB. reflexivity.
  - intros tid p Hcon Hp Hp'. cbn in Hp, Hcon. injection Hp as <-.
    rewrite Hh. apply (HC tid q Hcon eq_refl). congruence.
Qed.

Lemma sound_frame (w w' : World) :
  _service w' = _service w ->
  _connection_waiter w' = _connection_waiter w ->
  List.length (transports w') = List.length (transports w) ->
  bound_producer w' ->
  sound w -> sound w'.
Proof.
  unfold sound. intros -> -> -> Hb [HA _]. split; [exact HA | exact Hb].
Qed.

Lemma step_sound (ev : Event) (w : World) : sound w -> sound (step ev w).
Proof.
  intros Hs. unfold step.
  destruct ev as [record| sc | | | |].
  - rewrite emit_unfold. apply connect_sound. exact Hs.
  - destruct (conn (_service w)) as [n|tid] eqn:Hc; [|exact Hs].
    destruct Hs as [HA [HB HC]]. rewrite Hc in HA.
    set (w1 := set_conn _ (set_transports _ w)).
    assert (Hb1 : bound_producer w1).
    { split.
      - intros p Hp. cbn in *. rewrite length_app. specialize (HB p Hp). lia.
      - intros tid p Hcon Hp Htr. cbn in *. injection Hcon as <-.
        specialize (HB p Hp). lia. }
    destruct HA as [[Hw ->] | [Hw ->]].
    + cbn [repeat_callback]. split; [|exact Hb1].
      cbn. rewrite length_app. cbn. split; [exact Hw | lia].
    + cbn [repeat_callback run_callback snd].
      apply writer_sound; [reflexivity | | exact Hb1].
      cbn. rewrite length_app. cbn. lia.
  - destruct (conn (_service w)) as [n|tid] eqn:Hc; [|exact Hs].
    destruct Hs as [HA [HB HC]]. rewrite Hc in HA.
    destruct HA as [[Hw ->] | [Hw ->]].
    + cbn [repeat_callback]. split.
      * cbn. left. split; [exact Hw | reflexivity].
      * split; [exact HB|]. cbn. intros tid p Hcon. discriminate Hcon.
    + cbn [repeat_callback run_callback snd]. rewrite failed_unfold, fail_unfold.
      apply connect_sound. split.
      * cbn. left. split; reflexivity.
      * split; [exact HB|]. cbn. intros tid p Hcon. discriminate Hcon.
  - destruct (conn (_service w)) as [n|tid] eqn:Hc; [exact Hs|].
    destruct Hs as [HA [HB HC]]. rewrite Hc in HA. destruct HA as [Hw Hlt].
    destruct (connection_lost_facts w tid Hc) as (Hc' & Hw' & Hl' & _ & Hp').
    unfold step in Hc', Hw', Hl', Hp'. rewrite Hc in Hc', Hw', Hl', Hp'.
    split.
    + rewrite Hc', Hw'. left. split; [exact Hw | reflexivity].
    + split.
      * intros p Hp. destruct (Hp' p Hp) as (q & Hq & Htr).
        rewrite Hl', Htr. apply (HB q Hq).
      * intros tid0 p Hcon. rewrite Hc' in Hcon. discriminate Hcon.
  - destruct (conn (_service w)) as [n|tid] eqn:Hc; [exact Hs|].
    destruct (registered tid w); [|exact Hs].
    unfold pauseProducing, modify. cbn [snd].
    apply (sound_frame w); try exact Hs;
      try (unfold on_producer; destruct (_producer w); reflexivity).
    apply bound_on_producer; [intros p; split; reflexivity | apply Hs].
  - destruct (conn (_service w)) as [n|tid] eqn:Hc; [exact Hs|].
    destruct (registered tid w); [|exact Hs].
    destruct (resumeProducing_steady w) as [(_ & _ & _ & _ & _ & Hsv & Hl & _) Hwt].
    apply (sound_frame w); try assumption.
    destruct Hs as [_ [HB HC]].
    destruct (_producer w) as [q|] eqn:Hq.
    + destruct (resumeProducing_producer w q Hq) as (p' & Hp' & Htr' & Hh').
      split.
      * intros p Hp. rewrite Hp' in Hp. injection Hp as <-.
        rewrite Hl, Htr'. apply (HB q eq_refl).
      * intros tid0 p Hcon Hp Htr. rewrite Hp' in Hp. injection Hp as <-.
        rewrite Hsv in Hcon. rewrite Hh'. apply (HC tid0 q Hcon eq_refl). congruence.
    + assert (E : resumeProducing w = (Raise AssertionError, w)).
      { unfold resumeProducing, bind, modify, gets, raise, on_producer.
        rewrite Hq. cbn. rewrite Hq. reflexivity. }
      rewrite E. cbn [snd]. unfold bound_producer. rewrite Hq.
      split; [exact HB | exact HC].
Qed.

Lemma run_sound (evs : list Event) : forall w, sound w -> sound (run evs w).
Proof.
  induction evs as [|ev evs IH]; intros w H; [exact H|].
  cbn [run]. apply IH, step_sound, H.
Qed.

Lemma init_sound (ip_address : string -> result IPAddress) (h : string)
    (p m : Z) (r : option Reactor) (w : World) :
  __init__ ip_address h p m r = Ok w -> sound w.
Proof.
  intros Hinit.
  destruct (init_state _ _ _ _ _ _ Hinit) as (_ & _ & Hp & Hw & Hc & _).
  unfold sound, bound_producer. rewrite Hc, Hw, Hp.
  split; [right; split; reflexivity|].
  split; [intros q Hq; discriminate Hq | intros tid q Hcon; discriminate Hcon].
Qed.

(** X8: For a handler built by the constructor, whatever happens afterwards, the
    waiter is held exactly while a connection attempt is pending and is
    clear while connected, so no stale waiter ever blocks [_connect]; and the
    producer registered with the live transport has its handler, so the
    assertion of [resumeProducing] holds whenever the transport resumes
    it. *)
Theorem waiter_tracks_pending_attempt
    (ip_address : string -> result IPAddress) (h : string) (p m : Z)
    (r : option Reactor) (w0 : World) (evs : list Event) :
  __init__ ip_address h p m r = Ok w0 ->
  (_connection_waiter (run evs w0) = None <-> pending_attempts (run evs w0) = 0%nat)
  /\ (forall tid,
        conn (_service (run evs w0)) = Connected tid ->
        _connection_waiter (run evs w0) = None
        /\ (registered tid (run evs w0) = true ->
            fst (resumeProducing (run evs w0)) = Ok tt)).
Proof.
  intros Hinit.
  pose proof (run_sound evs w0 (init_sound _ _ _ _ _ _ Hinit)) as [HA [HB HC]].
  set (w := run evs w0) in *. unfold pending_attempts.
  destruct (conn (_service w)) as [n|tid] eqn:Hc.
  - split.
    + destruct HA as [[Hw ->] | [Hw ->]]; rewrite Hw; split; intros E;
        try reflexivity; discriminate E.
    + intros tid Hcon. discriminate Hcon.
  - destruct HA as [Hw Hlt]. split; [split; intros _; [reflexivity | exact Hw]|].
    intros tid0 Hcon. injection Hcon as <-. split; [exact Hw|].
    unfold registered. destruct (_producer w) as [q|] eqn:Hq; [|discriminate].
    intros E. apply Nat.eqb_eq in E.
    apply (resumeProducing_ok w q Hq). apply (HC tid q eq_refl eq_refl). congruence.
Qed.

Lemma waiter_tracks_pending_attempt_witness :
  _connection_waiter
    (run [Emit (record_at ERROR "a"); ConnectionFailed; ConnectionMade [Refuse];
          Emit (record_at ERROR "b"); ConnectionLost; Emit (record_at ERROR "c")]
         (local_handler 10))
  = None
  <-> pending_attempts
        (run [Emit (record_at ERROR "a"); ConnectionFailed; ConnectionMade [Refuse];
              Emit (record_at ERROR "b"); ConnectionLost; Emit (record_at ERROR "c")]
             (local_handler 10))
      = 0%nat.
Proof.
  apply (waiter_tracks_pending_attempt sample_ip_address "127.0.0.1" 9000 10 None
           (local_handler 10)).
  reflexivity.
Defined.

(** ** Flushing *)

Lemma accepting_tl (t : Transport) :
  accepting t ->
  forall data, accepting (mkTransport (connected t) (written t ++ [data]) (tl (script t))).
Proof.
  unfold accepting. intros H data. cbn.
  destruct (script t) as [|a s]; [constructor|]. inversion H; assumption.
Qed.

Lemma transport_write_accepting (data : bytes) (w : World) (p : LogProducer)
    (t : Transport) :
  _producer w = Some p ->
  nth_error (transports w) (transport p) = Some t ->
  accepting t ->
  transport_write data w
  = (Ok tt,
     set_transports
       (replace_nth (transport p)
          (mkTransport (connected t) (written t ++ [data]) (tl (script t)))
          (transports w)) w).
Proof.
  intros Hp Ht Ha. unfold transport_write. rewrite Hp, Ht. unfold write.
  unfold accepting in Ha.
  destruct (script t) as [|a s]; [reflexivity|].
  inversion Ha as [|a' s' Ea _]; subst. reflexivity.
Qed.

(** One round of the loop on a transport that takes everything. *)
Lemma send_next_accepting (record : LogRecord) (rest : deque) (w : World)
    (p : LogProducer) (t : Transport) (d : bytes) :
  _producer w = Some p ->
  nth_error (transports w) (transport p) = Some t ->
  accepting t ->
  rendered w record = Ok d ->
  exists w2 t2,
    send_next record rest w = (Ok true, w2)
    /\ _producer w2 = Some p
    /\ nth_error (transports w2) (transport p) = Some t2
    /\ connected t2 = connected t
    /\ accepting t2
    /\ written t2 = written t ++ line_calls d
    /\ _buffer w2 = rest
    /\ stderr w2 = stderr w
    /\ untouched w w2.
Proof.
  intros Hp Ht Ha Hd.
  assert (Hlen : (transport p < List.length (transports w))%nat)
    by (apply nth_error_Some; congruence).
  rewrite send_next_unfold. unfold rendered in Hd.
  destruct (formatter w record) as [msg|e]; [|discriminate].
  rewrite Hd.
  rewrite (transport_write_accepting d (set_buffer rest w) p t Hp Ht Ha).
  cbv beta iota. cbn [transports set_buffer].
  set (t1 := mkTransport (connected t) (written t ++ [d]) (tl (script t))).
  set (w1 := set_transports (replace_nth (transport p) t1 (transports w))
               (set_buffer rest w)).
  assert (Ht1 : nth_error (transports w1) (transport p) = Some t1)
    by (apply nth_error_replace_nth; exact Hlen).
  rewrite (transport_write_accepting newline w1 p t1 Hp Ht1
             (accepting_tl t Ha d)).
  eexists. eexists. split; [reflexivity|].
  cbn [_producer transports set_transports set_buffer _buffer stderr].
  split; [exact Hp|].
  split; [apply nth_error_replace_nth, nth_error_Some; rewrite Ht1; discriminate|].
  split; [reflexivity|].
  split; [apply (accepting_tl t1 (accepting_tl t Ha d))|].
  split; [cbn; rewrite <- app_assoc; reflexivity|].
  split; [reflexivity|]. split; [reflexivity|].
  unfold untouched, w1. cbn. rewrite !replace_nth_length. repeat split; reflexivity.
Qed.

(** A producer that is not paused, on a connected transport that takes
    everything, sends all it can render and leaves the buffer empty. *)
Lemma produce_flush (pending : deque) :
  forall (datas : list bytes) (w : World) (p : LogProducer) (t : Transport),
  _producer w = Some p ->
  _paused p = false ->
  nth_error (transports w) (transport p) = Some t ->
  connected t = true ->
  accepting t ->
  _buffer w = pending ->
  Forall2 (fun record d => rendered w record = Ok d) pending datas ->
  exists t',
    _producer (snd (produce pending w)) = Some p
    /\ nth_error (transports (snd (produce pending w))) (transport p) = Some t'
    /\ connected t' = true
    /\ accepting t'
    /\ written t' = written t ++ flat_map line_calls datas
    /\ _buffer (snd (produce pending w)) = []
    /\ stderr (snd (produce pending w)) = stderr w
    /\ untouched w (snd (produce pending w)).
Proof.
  induction pending as [|record rest IH]; intros datas w p t Hp Hpa Ht Hc Ha Hb HF.
  - inversion HF; subst. exists t. cbn [produce ret snd flat_map].
    rewrite app_nil_r. repeat split; auto using untouched_refl.
  - inversion HF as [|r0 d rest0 datas' Hd HF' E1 E2]; subst.
    rewrite produce_cons.
    assert (Hrun : producing w && transport_connected w = true).
    { unfold producing, transport_connected. rewrite Hp, Ht, Hpa, Hc. reflexivity. }
    rewrite Hrun.
    destruct (send_next_accepting record rest w p t d Hp Ht Ha Hd)
      as (w2 & t2 & E & Hp2 & Ht2 & Hc2 & Ha2 & Hw2 & Hb2 & He2 & Hu2).
    rewrite E.
    assert (HF2 : Forall2 (fun record d => rendered w2 record = Ok d) rest datas').
    { eapply Forall2_impl; [|exact HF']. intros r1 d1 H1.
      rewrite (rendered_untouched w w2 r1 Hu2). exact H1. }
    destruct (IH datas' w2 p t2 Hp2 Hpa Ht2 (eq_trans Hc2 Hc) Ha2 Hb2 HF2)
      as (t' & Hp' & Ht' & Hc' & Ha' & Hw' & Hb' & He' & Hu').
    exists t'.
    split; [exact Hp'|]. split; [exact Ht'|]. split; [exact Hc'|].
    split; [exact Ha'|].
    split; [rewrite Hw', Hw2; cbn [flat_map]; rewrite <- !app_assoc; reflexivity|].
    split; [exact Hb'|]. split; [congruence|].
    exact (untouched_trans _ _ _ Hu2 Hu').
Qed.

Lemma writer_flush (tid : nat) (w : World) (t : Transport) (datas : list bytes) :
  nth_error (transports w) tid = Some t ->
  connected t = true ->
  accepting t ->
  (forall p, _producer w = Some p -> transport p = tid -> _handler p = true) ->
  Forall2 (fun record d => rendered w record = Ok d) (_buffer w) datas ->
  exists t',
    _producer (snd (writer (Some tid) w)) = Some (mkLogProducer tid true false)
    /\ nth_error (transports (snd (writer (Some tid) w))) tid = Some t'
    /\ connected t' = true
    /\ accepting t'
    /\ written t' = written t ++ flat_map line_calls datas
    /\ _buffer (snd (writer (Some tid) w)) = []
    /\ _connection_waiter (snd (writer (Some tid) w)) = None
    /\ stderr (snd (writer (Some tid) w)) = stderr w
    /\ _service (snd (writer (Some tid) w)) = _service w.
Proof.
  intros Ht Hc Ha HC HF.
  destruct (rebound_producer tid w HC) as (p & Hp & Htr & Hh).
  destruct (rebound_same tid w) as (Hu & Hb & Hts & He).
  rewrite (writer_unfold tid w (resumeProducing_ok _ p Hp Hh)). cbn [snd].
  rewrite (resumeProducing_unfold _ p Hp), Hh.
  set (w1 := set_producer (Some (resumed p)) (rebound tid w)).
  assert (Hu1 : untouched w w1).
  { apply (untouched_trans _ _ _ Hu). unfold untouched, w1. cbn.
    repeat split; reflexivity. }
  assert (HF1 : Forall2 (fun record d => rendered w1 record = Ok d)
                  (_buffer (rebound tid w)) datas).
  { rewrite Hb. eapply Forall2_impl; [|exact HF]. intros r0 d0 H0.
    rewrite (rendered_untouched w w1 r0 Hu1). exact H0. }
  assert (Ht1 : nth_error (transports w1) (transport (resumed p)) = Some t)
    by (cbn; rewrite Hts, Htr; exact Ht).
  destruct (produce_flush (_buffer (rebound tid w)) datas w1 (resumed p) t
              eq_refl eq_refl Ht1 Hc Ha eq_refl HF1)
    as (t' & Hp' & Ht' & Hc' & Ha' & Hw' & Hb' & He' & Hu').
  exists t'. cbn [_producer transports _buffer _connection_waiter stderr _service
                  set_connection_waiter].
  assert (E : resumed p = mkLogProducer tid true false)
    by (destruct p; cbn in *; subst; reflexivity).
  split; [rewrite Hp', E; reflexivity|].
  split; [cbn in Ht'; rewrite Htr in Ht'; exact Ht'|].
  split; [exact Hc'|]. split; [exact Ha'|]. split; [exact Hw'|].
  split; [exact Hb'|]. split; [reflexivity|].
  split; [rewrite He'; cbn; exact He|].
  destruct Hu' as (_ & _ & _ & _ & _ & _ & Hs' & _). rewrite Hs'.
  destruct Hu as (_ & _ & _ & _ & _ & _ & Hs & _). cbn. exact Hs.
Qed.

Lemma emits_while_waiting (rs : list LogRecord) :
  forall w : World,
  _connection_waiter w <> None ->
  len (_buffer w ++ rs) <= maximum_buffer w ->
  run (map Emit rs) w = set_buffer (_buffer w ++ rs) w.
Proof.
  induction rs as [|r rs IH]; intros w Hw Hlen.
  - cbn. rewrite app_nil_r, set_buffer_same. reflexivity.
  - cbn [map run step]. rewrite emit_unfold, connect_cases. cbn [snd].
    rewrite shed_within
      by (rewrite !len_app in *; pose proof (len_nonneg rs);
          unfold len in *; cbn [List.length] in *; lia).
    set (w1 := set_buffer (_buffer w ++ [r]) w).
    destruct (_connection_waiter w1) as [d|] eqn:E; [|contradiction].
    rewrite IH; [| rewrite E; discriminate
                 | cbn; rewrite <- app_assoc; exact Hlen].
    unfold w1. cbn. rewrite <- app_assoc. reflexivity.
Qed.

Lemma emit_while_waiting (record : LogRecord) (w : World) :
  _connection_waiter w <> None ->
  step (Emit record) w
  = set_buffer (shed (maximum_buffer w) (_buffer w ++ [record])) w.
Proof.
  intros Hw. cbn [step]. rewrite emit_unfold, connect_cases. cbn [snd].
  set (w1 := set_buffer _ w).
  change (_connection_waiter w1) with (_connection_waiter w).
  destruct (_connection_waiter w); [reflexivity | contradiction].
Qed.

(** X9: While a connection attempt is pending, an emit changes nothing but
    the buffer, which takes the record and is relieved of pressure; nothing
    is written and no attempt is started, however many records are emitted.
    Records that fit within the maximum are appended in order and none is
    shed. *)
Theorem emits_are_buffered_while_connecting (rs : list LogRecord) (w : World) :
  _connection_waiter w <> None ->
  run (map Emit rs) w
  = set_buffer
      (fold_left (fun b record => shed (maximum_buffer w) (b ++ [record]))
                 rs (_buffer w)) w
  /\ (len (_buffer w ++ rs) <= maximum_buffer w ->
      run (map Emit rs) w = set_buffer (_buffer w ++ rs) w).
Proof.
  intros Hw. split.
  - revert w Hw. induction rs as [|r rs IH]; intros w Hw.
    + cbn. rewrite set_buffer_same. reflexivity.
    + cbn [map run fold_left]. rewrite (emit_while_waiting r w Hw).
      set (w1 := set_buffer _ w). rewrite (IH w1 Hw). reflexivity.
  - intros Hlen. apply emits_while_waiting; assumption.
Qed.

Lemma emits_are_buffered_while_connecting_witness :
  run (map Emit [record_at DEBUG "a"; record_at ERROR "b"]) (local_handler 2)
  = set_buffer (_buffer (local_handler 2) ++ [record_at DEBUG "a"; record_at ERROR "b"])
      (local_handler 2).
Proof.
  apply (emits_are_buffered_while_connecting
           [record_at DEBUG "a"; record_at ERROR "b"] (local_handler 2)).
  - vm_compute. discriminate.
  - vm_compute. discriminate.
Defined.

(** X10: Records emitted while the first connection attempt is pending, no more
    than the maximum and all of them renderable, reach a transport that takes
    everything in the order of their arrival, one line each, as soon as the
    connection is made; the buffer is empty afterwards. *)
Theorem buffered_records_are_delivered_in_order
    (ip_address : string -> result IPAddress) (h : string) (p m : Z)
    (r : option Reactor) (w0 : World) (rs : list LogRecord)
    (datas : list bytes) (sc : list WriteAction) :
  __init__ ip_address h p m r = Ok w0 ->
  len rs <= m ->
  Forall2 (fun record d => rendered w0 record = Ok d) rs datas ->
  Forall (fun a => a = Accept) sc ->
  write_calls (run (map Emit rs ++ [ConnectionMade sc]) w0)
  = flat_map line_calls datas
  /\ _buffer (run (map Emit rs ++ [ConnectionMade sc]) w0) = []
  /\ stderr (run (map Emit rs ++ [ConnectionMade sc]) w0) = [].
Proof.
  intros Hinit Hlen HF Hsc.
  destruct (init_state _ _ _ _ _ _ Hinit) as (Hm & Hb & Hp & Hw & Hc & _).
  assert (Hrun : forall evs1 evs2 w, run (evs1 ++ evs2) w = run evs2 (run evs1 w)).
  { induction evs1; intros; cbn; [reflexivity | apply IHevs1]. }
  rewrite Hrun, emits_while_waiting
    by (rewrite ?Hw, ?Hb, ?Hm; cbn; (discriminate || exact Hlen)).
  rewrite Hb. cbn [app run]. set (w1 := set_buffer rs w0).
  unfold step. replace (conn (_service w1)) with (Connecting 1) by (symmetry; exact Hc).
  cbn [repeat_callback run_callback snd].
  set (tid := List.length (transports w1)).
  set (w2 := set_conn (Connected tid) (set_transports _ w1)).
  assert (Hts : transports w0 = []).
  { unfold __init__ in Hinit.
    destruct (ip_address h) as [[| |]|[]]; try discriminate;
      try (destruct r; try discriminate); cbn in Hinit;
      injection Hinit as <-; reflexivity. }
  assert (He0 : stderr w0 = []).
  { unfold __init__ in Hinit.
    destruct (ip_address h) as [[| |]|[]]; try discriminate;
      try (destruct r; try discriminate); cbn in Hinit;
      injection Hinit as <-; reflexivity. }
  destruct (writer_flush tid w2 (mkTransport true [] sc) datas)
    as (t' & Hp' & Ht' & _ & _ & Hw' & Hb' & _ & He' & _).
  - unfold w2, tid, w1. cbn. rewrite Hts. reflexivity.
  - reflexivity.
  - exact Hsc.
  - intros q Hq. unfold w2, w1 in Hq. cbn in Hq. rewrite Hp in Hq. discriminate Hq.
  - unfold w2, w1. cbn. exact HF.
  - split; [|split; [exact Hb' | rewrite He'; exact He0]].
    unfold write_calls, producer_transport. rewrite Hp'. cbn [transport].
    rewrite Ht', Hw'. reflexivity.
Qed.

Lemma buffered_records_are_delivered_in_order_witness :
  write_calls
    (run (map Emit [record_at INFO "a"; record_at DEBUG "b"] ++ [ConnectionMade []])
         (local_handler 2))
  = flat_map line_calls [bytes_of_string "a"; bytes_of_string "b"].
Proof.
  apply (buffered_records_are_delivered_in_order sample_ip_address "127.0.0.1"
           9000 2 None (local_handler 2)
           [record_at INFO "a"; record_at DEBUG "b"]
           [bytes_of_string "a"; bytes_of_string "b"] []).
  - reflexivity.
  - vm_compute. discriminate.
  - repeat constructor.
  - constructor.
Defined.

(** X11: In any state that events lead to, a connection made while an attempt is
    pending gets a producer of its own, bound to the new transport, and the
    waiter is cleared; if the transport takes everything, all renderable
    records of the buffer go to it, in order. *)
Theorem new_connection_gets_the_buffer (w : World) (sc : list WriteAction)
    (datas : list bytes) :
  sound w ->
  conn (_service w) = Connecting 1 ->
  Forall (fun a => a = Accept) sc ->
  Forall2 (fun record d => rendered w record = Ok d) (_buffer w) datas ->
  _producer (step (ConnectionMade sc) w)
  = Some (mkLogProducer (List.length (transports w)) true false)
  /\ write_calls (step (ConnectionMade sc) w) = flat_map line_calls datas
  /\ _buffer (step (ConnectionMade sc) w) = []
  /\ _connection_waiter (step (ConnectionMade sc) w) = None
  /\ conn (_service (step (ConnectionMade sc) w))
     = Connected (List.length (transports w))
  /\ stderr (step (ConnectionMade sc) w) = stderr w.
Proof.
  intros [_ [HB _]] Hc Hsc HF. unfold step. rewrite Hc.
  cbn [repeat_callback run_callback snd].
  set (tid := List.length (transports w)).
  set (w2 := set_conn (Connected tid) (set_transports _ w)).
  destruct (writer_flush tid w2 (mkTransport true [] sc) datas)
    as (t' & Hp' & Ht' & _ & _ & Hw' & Hb' & Hwt' & He' & Hs').
  - unfold w2, tid. cbn. rewrite nth_error_app2 by lia.
    rewrite Nat.sub_diag. reflexivity.
  - reflexivity.
  - exact Hsc.
  - intros q Hq Htr. unfold w2 in Hq. cbn in Hq. specialize (HB q Hq).
    unfold tid in Htr. lia.
  - unfold w2. cbn. exact HF.
  - split; [exact Hp'|].
    split; [unfold write_calls, producer_transport; rewrite Hp'; cbn [transport];
            rewrite Ht', Hw'; reflexivity|].
    split; [exact Hb'|]. split; [exact Hwt'|].
    split; [rewrite Hs'; reflexivity | exact He'].
Qed.

Lemma new_connection_gets_the_buffer_witness :
  write_calls
    (step (ConnectionMade [])
       (run [ConnectionMade []; ConnectionLost; Emit (record_at ERROR "again")]
            (local_handler 10)))
  = flat_map line_calls [bytes_of_string "again"].
Proof.
  apply (new_connection_gets_the_buffer
           (run [ConnectionMade []; ConnectionLost; Emit (record_at ERROR "again")]
                (local_handler 10)) [] [bytes_of_string "again"]).
  - apply run_sound.
    apply (init_sound sample_ip_address "127.0.0.1" 9000 10 None). reflexivity.
  - reflexivity.
  - constructor.
  - repeat constructor.
Defined.

(** X12: On a live connection [emit] writes at once: when the transport takes
    everything and nothing has to be shed, the buffer and the new record go
    out in order and the buffer is empty when [emit] returns -- also when
    the transport had paused the producer, for [emit] resumes it. *)
Theorem emit_on_live_connection_writes_at_once (w : World) (tid : nat)
    (t : Transport) (record : LogRecord) (datas : list bytes) :
  sound w ->
  conn (_service w) = Connected tid ->
  nth_error (transports w) tid = Some t ->
  connected t = true ->
  accepting t ->
  len (_buffer w ++ [record]) <= maximum_buffer w ->
  Forall2 (fun r d => rendered w r = Ok d) (_buffer w ++ [record]) datas ->
  exists t',
    nth_error (transports (snd (emit record w))) tid = Some t'
    /\ written t' = written t ++ flat_map line_calls datas
    /\ _buffer (snd (emit record w)) = []
    /\ _producer (snd (emit record w)) = Some (mkLogProducer tid true false).
Proof.
  intros [HA [_ HC]] Hc Ht Hcon Ha Hlen HF.
  rewrite Hc in HA. destruct HA as [Hw _].
  rewrite emit_unfold, connect_cases. cbn [snd _connection_waiter set_buffer _service].
  rewrite Hw, Hc, shed_within by exact Hlen.
  set (w1 := set_connection_waiter _ (set_buffer _ w)).
  destruct (writer_flush tid w1 t datas) as (t' & Hp' & Ht' & _ & _ & Hw' & Hb' & _).
  - exact Ht.
  - exact Hcon.
  - exact Ha.
  - intros q Hq Htr. apply (HC tid q Hc Hq Htr).
  - exact HF.
  - exists t'. repeat split; assumption.
Qed.

Lemma emit_on_live_connection_writes_at_once_witness :
  exists t',
    nth_error (transports (snd (emit (record_at ERROR "now")
                             (run [ConnectionMade []; TransportPause] (local_handler 10)))))
              0 = Some t'
    /\ written t' = [] ++ flat_map line_calls [bytes_of_string "now"]
    /\ _buffer (snd (emit (record_at ERROR "now")
                      (run [ConnectionMade []; TransportPause] (local_handler 10)))) = []
    /\ _producer (snd (emit (record_at ERROR "now")
                        (run [ConnectionMade []; TransportPause] (local_handler 10))))
       = Some (mkLogProducer 0 true false).
Proof.
  apply (emit_on_live_connection_writes_at_once
           (run [ConnectionMade []; TransportPause] (local_handler 10)) 0
           (mkTransport true [] []) (record_at ERROR "now") [bytes_of_string "now"]).
  - apply run_sound.
    apply (init_sound sample_ip_address "127.0.0.1" 9000 10 None). reflexivity.
  - reflexivity.
  - reflexivity.
  - reflexivity.
  - constructor.
  - vm_compute. discriminate.
  - repeat constructor.
Defined.

(** ** Pausing, stopping and a transport that is down *)

Lemma produce_paused (pending : deque) (w : World) :
  producing w = false -> produce pending w = (Ok tt, w).
Proof.
  intros H. destruct pending; [reflexivity|].
  rewrite produce_cons, H. reflexivity.
Qed.

Lemma transport_write_run (data : bytes) (w : World) (p : LogProducer)
    (t : Transport) :
  _producer w = Some p ->
  nth_error (transports w) (transport p) = Some t ->
  transport_write data w
  = match script t with
    | [] =>
        (Ok tt,
         set_transports
           (replace_nth (transport p)
              (mkTransport (connected t) (written t ++ [data]) []) (transports w)) w)
    | Accept :: s =>
        (Ok tt,
         set_transports
           (replace_nth (transport p)
              (mkTransport (connected t) (written t ++ [data]) s) (transports w)) w)
    | AcceptThenPause :: s =>
        (Ok tt,
         set_producer (Some (mkLogProducer (transport p) (_handler p) true))
           (set_transports
              (replace_nth (transport p)
                 (mkTransport (connected t) (written t ++ [data]) s) (transports w)) w))
    | Refuse :: s =>
        (Raise WriteError,
         set_transports
           (replace_nth (transport p)
              (mkTransport (connected t) (written t) s) (transports w)) w)
    end.
Proof.
  intros Hp Ht. unfold transport_write. rewrite Hp, Ht. unfold write.
  destruct (script t) as [|[| |] s]; try reflexivity.
  unfold pauseProducing, modify, on_producer. cbn. rewrite Hp. reflexivity.
Qed.

(** X13: A pause asked for while a record is being written takes effect between
    records: the newline of that record is still written, then the loop
    stops with the producer paused and the other records in the buffer. *)
Theorem pause_takes_effect_between_records (w : World) (p : LogProducer)
    (t : Transport) (record : LogRecord) (rest : deque) (d : bytes)
    (s : list WriteAction) :
  _producer w = Some p ->
  _handler p = true ->
  nth_error (transports w) (transport p) = Some t ->
  connected t = true ->
  script t = AcceptThenPause :: s ->
  hd Accept s <> Refuse ->
  _buffer w = record :: rest ->
  rendered w record = Ok d ->
  exists p' t',
    _producer (snd (resumeProducing w)) = Some p'
    /\ _paused p' = true
    /\ nth_error (transports (snd (resumeProducing w))) (transport p) = Some t'
    /\ written t' = written t ++ [d; newline]
    /\ _buffer (snd (resumeProducing w)) = rest
    /\ stderr (snd (resumeProducing w)) = stderr w.
Proof.
  intros Hp Hh Ht Hc Hs Hnext Hb Hd.
  assert (Hlen : (transport p < List.length (transports w))%nat)
    by (apply nth_error_Some; congruence).
  rewrite (resumeProducing_unfold w p Hp), Hh, Hb, produce_cons.
  assert (Hrun : producing (set_producer (Some (resumed p)) w)
                 && transport_connected (set_producer (Some (resumed p)) w) = true).
  { unfold producing, transport_connected. cbn. rewrite Ht, Hc. reflexivity. }
  rewrite Hrun, send_next_unfold. cbn [formatter set_producer].
  unfold rendered in Hd. destruct (formatter w record) as [msg|e]; [|discriminate].
  rewrite Hd.
  set (w0 := set_buffer rest (set_producer (Some (resumed p)) w)).
  rewrite (transport_write_run d w0 (resumed p) t eq_refl Ht), Hs.
  cbv beta iota. cbn [resumed transport _handler transports].
  set (t1 := mkTransport (connected t) (written t ++ [d]) s).
  set (p1 := mkLogProducer (transport p) (_handler p) true).
  set (w1 := set_producer (Some p1) (set_transports _ w0)).
  assert (Ht1 : nth_error (transports w1) (transport p1) = Some t1)
    by (apply nth_error_replace_nth; exact Hlen).
  rewrite (transport_write_run newline w1 p1 t1 eq_refl Ht1).
  assert (Hl1 : (transport p < List.length (transports w1))%nat)
    by (unfold w1; cbn; rewrite replace_nth_length; exact Hlen).
  cbn [script t1].
  destruct s as [|[| |] s']; cbn [hd] in Hnext;
    try (exfalso; apply Hnext; reflexivity);
    cbv beta iota;
    (rewrite produce_paused by reflexivity);
    cbn [snd];
    exists p1; eexists;
    (split; [reflexivity|]); (split; [reflexivity|]);
    (split; [cbn [transports set_transports set_producer p1 transport];
             apply nth_error_replace_nth; exact Hl1|]);
    (split; [cbn; rewrite <- app_assoc; reflexivity|]);
    split; reflexivity.
Qed.

Lemma pause_takes_effect_between_records_witness :
  exists p' t',
    _producer (snd (resumeProducing
       (appended (record_at INFO "two")
          (appended (record_at INFO "one")
             (run [ConnectionMade [AcceptThenPause]] (local_handler 10))))))
    = Some p'
    /\ _paused p' = true
    /\ nth_error (transports (snd (resumeProducing
         (appended (record_at INFO "two")
            (appended (record_at INFO "one")
               (run [ConnectionMade [AcceptThenPause]] (local_handler 10))))))) 0
       = Some t'
    /\ written t' = [] ++ [bytes_of_string "one"; newline]
    /\ _buffer (snd (resumeProducing
         (appended (record_at INFO "two")
            (appended (record_at INFO "one")
               (run [ConnectionMade [AcceptThenPause]] (local_handler 10))))))
       = [record_at INFO "two"]
    /\ stderr (snd (resumeProducing
         (appended (record_at INFO "two")
            (appended (record_at INFO "one")
               (run [ConnectionMade [AcceptThenPause]] (local_handler 10))))))
       = [].
Proof.
  apply (pause_takes_effect_between_records
           (appended (record_at INFO "two")
              (appended (record_at INFO "one")
                 (run [ConnectionMade [AcceptThenPause]] (local_handler 10))))
           (mkLogProducer 0 true false) (mkTransport true [] [AcceptThenPause])
           (record_at INFO "one") [record_at INFO "two"] (bytes_of_string "one") []).
  - reflexivity.
  - reflexivity.
  - reflexivity.
  - reflexivity.
  - reflexivity.
  - discriminate.
  - reflexivity.
  - reflexivity.
Defined.

(** X14: A producer that was stopped, or whose transport is not connected, sends
    nothing when resumed and takes no record from the buffer; only its
    paused flag is cleared.  The stopped producer fails its assertion, the
    other returns normally. *)
Theorem resume_without_connection_keeps_records (w : World) (p : LogProducer)
    (t : Transport) :
  _producer w = Some p ->
  nth_error (transports w) (transport p) = Some t ->
  connected t = false \/ _handler p = false ->
  snd (resumeProducing w) = set_producer (Some (resumed p)) w
  /\ fst (resumeProducing w)
     = if _handler p then Ok tt else Raise AssertionError.
Proof.
  intros Hp Ht Hdown. rewrite (resumeProducing_unfold w p Hp).
  destruct (_handler p) eqn:Hh.
  - destruct Hdown as [Hc | Hf]; [|discriminate].
    rewrite produce_no_transport; [split; reflexivity|].
    unfold transport_connected. cbn. rewrite Ht. exact Hc.
  - split; reflexivity.
Qed.

Lemma resume_without_connection_keeps_records_witness :
  snd (resumeProducing
         (run [Emit (record_at ERROR "kept"); ConnectionMade [Refuse]; ConnectionLost;
               Emit (record_at ERROR "too")]
              (local_handler 10)))
  = set_producer (Some (mkLogProducer 0 false false))
      (run [Emit (record_at ERROR "kept"); ConnectionMade [Refuse]; ConnectionLost;
            Emit (record_at ERROR "too")]
           (local_handler 10)).
Proof.
  apply (resume_without_connection_keeps_records
           (run [Emit (record_at ERROR "kept"); ConnectionMade [Refuse]; ConnectionLost;
                 Emit (record_at ERROR "too")]
                (local_handler 10))
           (mkLogProducer 0 false true) (mkTransport false [] [])).
  - reflexivity.
  - reflexivity.
  - left. reflexivity.
Defined.

(** ** Transports that have lost their connection *)

Lemma nth_error_replace_nth_other {A : Type} (n k : nat) (x : A) (l : list A) :
  n <> k -> nth_error (replace_nth n x l) k = nth_error l k.
Proof.
  revert n k; induction l as [|y l IH]; intros [|n] [|k] H; simpl;
    try reflexivity; try congruence.
  apply IH; congruence.
Qed.

Lemma transport_write_other (data : bytes) (w : World) (p : LogProducer) (i : nat) :
  _producer w = Some p ->
  transport p <> i ->
  nth_error (transports (snd (transport_write data w))) i = nth_error (transports w) i.
Proof.
  intros Hp Hi.
  destruct (nth_error (transports w) (transport p)) as [t|] eqn:Ht.
  - rewrite (transport_write_run data w p t Hp Ht).
    destruct (script t) as [|[| |] s]; cbn;
      apply nth_error_replace_nth_other; exact Hi.
  - unfold transport_write. rewrite Hp, Ht. reflexivity.
Qed.

Lemma send_next_other (record : LogRecord) (rest : deque) (w : World)
    (p : LogProducer) (t : Transport) (i : nat) :
  _producer w = Some p ->
  nth_error (transports w) (transport p) = Some t ->
  transport p <> i ->
  nth_error (transports (snd (send_next record rest w))) i = nth_error (transports w) i.
Proof.
  intros Hp Ht Hi. rewrite send_next_unfold.
  destruct (formatter w record) as [msg|e]; [|reflexivity].
  destruct (encode_utf8 msg) as [data|e]; [|reflexivity].
  pose proof (transport_write_other data (set_buffer rest w) p i Hp Hi) as H1.
  destruct (transport_write_spec data (set_buffer rest w) p t Hp Ht)
    as (p1 & t1 & Hp1 & Htr1 & _).
  destruct (transport_write data (set_buffer rest w)) as [[[]|e] w1];
    cbn [fst snd] in *; [|exact H1].
  assert (Hi1 : transport p1 <> i) by congruence.
  pose proof (transport_write_other newline w1 p1 i Hp1 Hi1) as H2.
  destruct (transport_write newline w1) as [[[]|e] w2]; cbn [fst snd] in *;
    rewrite H2; exact H1.
Qed.

Lemma produce_other (pending : deque) (i : nat) :
  forall (w : World) (p : LogProducer),
  _producer w = Some p ->
  transport p <> i ->
  nth_error (transports (snd (produce pending w))) i = nth_error (transports w) i.
Proof.
  induction pending as [|record rest IH]; intros w p Hp Hi; [reflexivity|].
  destruct (nth_error (transports w) (transport p)) as [t|] eqn:Ht.
  - rewrite produce_cons.
    destruct (producing w && transport_connected w); [|reflexivity].
    pose proof (send_next_other record rest w p t i Hp Ht Hi) as H1.
    destruct (send_next_spec record rest w p t Hp Ht) as (p1 & t1 & Hp1 & Htr1 & _).
    destruct (send_next record rest w) as [[[|]|e] w1]; cbn [fst snd] in *;
      try exact H1.
    rewrite (IH w1 p1 Hp1) by congruence. exact H1.
  - rewrite produce_no_transport; [reflexivity|].
    unfold transport_connected. rewrite Hp, Ht. reflexivity.
Qed.

Lemma resumeProducing_dead (w : World) (i : nat) (t : Transport) :
  nth_error (transports w) i = Some t ->
  connected t = false ->
  nth_error (transports (snd (resumeProducing w))) i = Some t.
Proof.
  intros Ht Hc.
  destruct (_producer w) as [p|] eqn:Hp.
  - rewrite (resumeProducing_unfold w p Hp).
    destruct (_handler p); [|exact Ht].
    destruct (Nat.eq_dec (transport p) i) as [E|E].
    + rewrite produce_no_transport; [exact Ht|].
      unfold transport_connected. cbn. rewrite E, Ht. exact Hc.
    + rewrite (produce_other (_buffer w) i (set_producer (Some (resumed p)) w)
                 (resumed p) eq_refl E). exact Ht.
  - assert (E : resumeProducing w = (Raise AssertionError, w)).
    { unfold resumeProducing, bind, modify, gets, raise, on_producer.
      rewrite Hp. cbn. rewrite Hp. reflexivity. }
    rewrite E. exact Ht.
Qed.

Lemma writer_dead (r : option nat) (w : World) (i : nat) (t : Transport) :
  nth_error (transports w) i = Some t ->
  connected t = false ->
  nth_error (transports (snd (writer r w))) i = Some t.
Proof.
  intros Ht Hc. destruct r as [tid|]; [|rewrite writer_None; exact Ht].
  unfold writer, stopProducing, bind, gets, modify.
  destruct (_producer w) as [prod|] eqn:Hp;
    [destruct (Nat.eqb tid (transport prod))|];
    match goal with
    | |- context [resumeProducing ?x] =>
        assert (H0 : nth_error (transports x) i = Some t)
          by (unfold on_producer; rewrite ?Hp; exact Ht);
        pose proof (resumeProducing_dead x i t H0 Hc) as H1;
        destruct (resumeProducing x) as [[[]|e] w1]
    end;
    exact H1.
Qed.

Lemma connect_dead (w : World) (i : nat) (t : Transport) :
  nth_error (transports w) i = Some t ->
  connected t = false ->
  nth_error (transports (snd (_connect w))) i = Some t.
Proof.
  intros Ht Hc. rewrite connect_cases. cbn [snd].
  destruct (_connection_waiter w); [exact Ht|].
  destruct (conn (_service w)); [exact Ht|].
  apply writer_dead; [exact Ht | exact Hc].
Qed.

Lemma repeat_callback_dead (m : M unit) (i : nat) (t : Transport) :
  (forall w, nth_error (transports w) i = Some t ->
             nth_error (transports (snd (m w))) i = Some t) ->
  forall n w, nth_error (transports w) i = Some t ->
              nth_error (transports (repeat_callback n m w)) i = Some t.
Proof.
  intros Hm n. induction n as [|n IH]; intros w H; [exact H|].
  cbn [repeat_callback run_callback snd]. apply IH, Hm, H.
Qed.

Lemma step_dead (ev : Event) (w : World) (i : nat) (t : Transport) :
  nth_error (transports w) i = Some t ->
  connected t = false ->
  nth_error (transports (step ev w)) i = Some t.
Proof.
  intros Ht Hc. unfold step.
  assert (Hlen : (i < List.length (transports w))%nat)
    by (apply nth_error_Some; congruence).
  destruct ev as [record| sc | | | |].
  - rewrite emit_unfold. apply connect_dead; [exact Ht | exact Hc].
  - destruct (conn (_service w)) as [n|tid]; [|exact Ht].
    apply repeat_callback_dead.
    + intros w0 H0. apply writer_dead; [exact H0 | exact Hc].
    + cbn. rewrite nth_error_app1 by exact Hlen. exact Ht.
  - destruct (conn (_service w)) as [n|tid]; [|exact Ht].
    apply repeat_callback_dead; [|exact Ht].
    intros w0 H0. rewrite failed_unfold, fail_unfold.
    apply connect_dead; [exact H0 | exact Hc].
  - destruct (conn (_service w)) as [n|tid]; [exact Ht|].
    cbn [transports set_conn].
    set (w1 := match nth_error (transports w) tid with
               | Some t0 => set_transports (replace_nth tid (disconnect t0) (transports w)) w
               | None => w
               end).
    assert (H1 : nth_error (transports w1) i = Some t).
    { unfold w1. destruct (nth_error (transports w) tid) as [t0|] eqn:E; [|exact Ht].
      cbn. destruct (Nat.eq_dec tid i) as [->|Hne].
      - rewrite nth_error_replace_nth by exact Hlen.
        rewrite Ht in E. injection E as <-.
        destruct t as [c wr sc]. cbn in Hc. subst c. reflexivity.
      - rewrite nth_error_replace_nth_other by exact Hne. exact Ht. }
    destruct (registered tid w1); [|exact H1].
    unfold stopProducing, modify, on_producer. cbn [snd].
    destruct (_producer w1); exact H1.
  - destruct (conn (_service w)) as [n|tid]; [exact Ht|].
    destruct (registered tid w); [|exact Ht].
    unfold pauseProducing, modify, on_producer. cbn [snd].
    destruct (_producer w); exact Ht.
  - destruct (conn (_service w)) as [n|tid]; [exact Ht|].
    destruct (registered tid w); [|exact Ht].
    apply resumeProducing_dead; [exact Ht | exact Hc].
Qed.

(** X15: Nothing is ever written to a transport that is not connected: whatever
    happens afterwards, it stays exactly as it is. *)
Theorem dead_transport_is_never_written (evs : list Event) :
  forall (w : World) (i : nat) (t : Transport),
  nth_error (transports w) i = Some t ->
  connected t = false ->
  nth_error (transports (run evs w)) i = Some t.
Proof.
  induction evs as [|ev evs IH]; intros w i t Ht Hc; [exact Ht|].
  cbn [run]. apply IH; [|exact Hc]. apply step_dead; [exact Ht | exact Hc].
Qed.

Lemma dead_transport_is_never_written_witness :
  nth_error
    (transports
       (run [Emit (record_at ERROR "b"); ConnectionMade []; Emit (record_at ERROR "c");
             TransportResume]
            (run [Emit (record_at ERROR "a"); ConnectionMade []; ConnectionLost]
                 (local_handler 10))))
    0
  = Some (mkTransport false [bytes_of_string "a"; newline] []).
Proof.
  apply (dead_transport_is_never_written
           [Emit (record_at ERROR "b"); ConnectionMade []; Emit (record_at ERROR "c");
            TransportResume]
           (run [Emit (record_at ERROR "a"); ConnectionMade []; ConnectionLost]
                (local_handler 10))
           0 (mkTransport false [bytes_of_string "a"; newline] [])).
  - reflexivity.
  - reflexivity.
Defined.

(** ** Retrying *)

Lemma step_failed_once (w : World) :
  conn (_service w) = Connecting 1 ->
  step ConnectionFailed w
  = set_connection_waiter (Some Waiting)
      (set_conn (Connecting 1)
         (set_connection_waiter None
            (set_stderr (stderr w ++ [ConnectError]) (set_conn (Connecting 0) w)))).
Proof.
  intros Hc. unfold step. rewrite Hc. cbn [repeat_callback run_callback snd].
  rewrite failed_unfold, fail_unfold, connect_cases. reflexivity.
Qed.

(** X16: A failed connection attempt is reported on stderr and followed at once
    by a new attempt, however many attempts fail in a row; the buffer, the
    producer and the transports are not touched. *)
Theorem failed_attempts_are_retried (k : nat) :
  forall w : World,
  conn (_service w) = Connecting 1 ->
  stderr (run (repeat ConnectionFailed k) w) = stderr w ++ repeat ConnectError k
  /\ conn (_service (run (repeat ConnectionFailed k) w)) = Connecting 1
  /\ _buffer (run (repeat ConnectionFailed k) w) = _buffer w
  /\ _producer (run (repeat ConnectionFailed k) w) = _producer w
  /\ transports (run (repeat ConnectionFailed k) w) = transports w
  /\ (k <> 0%nat ->
      _connection_waiter (run (repeat ConnectionFailed k) w) = Some Waiting).
Proof.
  induction k as [|k IH]; intros w Hc.
  - cbn. rewrite app_nil_r. repeat split; try reflexivity; try exact Hc.
    intros H. contradiction.
  - cbn [repeat run]. rewrite (step_failed_once w Hc).
    set (w1 := set_connection_waiter _ _).
    destruct (IH w1 eq_refl) as (He & Hc' & Hb & Hp & Ht & Hw).
    split; [rewrite He; cbn; rewrite <- app_assoc; reflexivity|].
    split; [exact Hc'|]. split; [exact Hb|]. split; [exact Hp|].
    split; [exact Ht|]. intros _.
    destruct k as [|k']; [reflexivity | apply Hw; discriminate].
Qed.

Lemma failed_attempts_are_retried_witness :
  stderr (run (repeat ConnectionFailed 3) (local_handler 10))
  = [] ++ repeat ConnectError 3.
Proof.
  apply (failed_attempts_are_retried 3 (local_handler 10)). reflexivity.
Defined.

(** ** Line feeds on the wire *)

Lemma byte_of_N_line_feed (n : N) :
  Byte.eqb line_feed (byte_of_N n) = (n mod 256 =? 10)%N.
Proof.
  unfold byte_of_N, line_feed.
  destruct (Byte.of_N (n mod 256)) as [b|] eqn:E.
  - pose proof (Byte.to_of_N (n mod 256) E) as Hb.
    destruct (Byte.eqb "010" b) eqn:Eb.
    + apply byte_dec_bl in Eb. subst b. symmetry. apply N.eqb_eq.
      rewrite <- Hb. reflexivity.
    + symmetry. apply N.eqb_neq. intros H. rewrite H in E.
      cbn in E. injection E as <-. discriminate Eb.
  - apply Byte.of_N_None_iff in E.
    pose proof (N.mod_lt n 256 ltac:(discriminate)) as H.
    generalize dependent (n mod 256)%N. intros r E H. lia.
Qed.

Lemma high_byte_is_no_line_feed (n : N) :
  (128 <= n < 256)%N -> Byte.eqb line_feed (byte_of_N n) = false.
Proof.
  intros H. rewrite byte_of_N_line_feed, N.mod_small by lia.
  apply N.eqb_neq. lia.
Qed.

Lemma lead_byte (base c d lim : N) :
  (c < d * lim)%N -> (128 <= base)%N -> (base + lim <= 256)%N ->
  (128 <= base + c / d < 256)%N.
Proof.
  intros H Hb Hl. apply N.Div0.div_lt_upper_bound in H.
  generalize dependent (c / d)%N. intros q H. lia.
Qed.

Lemma continuation_byte (x : N) : (128 <= 128 + x mod 64 < 256)%N.
Proof.
  pose proof (N.mod_lt x 64 ltac:(discriminate)) as H.
  generalize dependent (x mod 64)%N. intros r H. lia.
Qed.

Lemma utf8_encode_char_line_feeds (c : N) (bs : bytes) :
  utf8_encode_char c = Some bs ->
  filter (Byte.eqb line_feed) bs = if (c =? 10)%N then [line_feed] else [].
Proof.
  unfold utf8_encode_char.
  destruct (c <? 128)%N eqn:E1.
  { apply N.ltb_lt in E1. intros H. injection H as <-. cbn [filter].
    rewrite byte_of_N_line_feed, N.mod_small by lia.
    destruct (c =? 10)%N eqn:E; [|reflexivity].
    apply N.eqb_eq in E. subst c. reflexivity. }
  apply N.ltb_ge in E1.
  assert (Hc : (c =? 10)%N = false) by (apply N.eqb_neq; lia).
  rewrite Hc.
  destruct (c <? 2048)%N eqn:E2.
  { apply N.ltb_lt in E2. intros H. injection H as <-. cbn [filter].
    rewrite !high_byte_is_no_line_feed;
      [reflexivity | apply continuation_byte | apply (lead_byte 192 c 64 32); lia]. }
  destruct ((55296 <=? c) && (c <=? 57343))%N; [discriminate|].
  destruct (c <? 65536)%N eqn:E3.
  { apply N.ltb_lt in E3. intros H. injection H as <-. cbn [filter].
    rewrite !high_byte_is_no_line_feed;
      [reflexivity | apply continuation_byte | apply continuation_byte
       | apply (lead_byte 224 c 4096 16); lia]. }
  destruct (c <? 1114112)%N eqn:E4; [|discriminate].
  apply N.ltb_lt in E4. intros H. injection H as <-. cbn [filter].
  rewrite !high_byte_is_no_line_feed;
    [reflexivity | apply continuation_byte | apply continuation_byte
     | apply continuation_byte | apply (lead_byte 240 c 262144 5); lia].
Qed.

Lemma utf8_encode_line_feeds (s : pystr) :
  forall b, utf8_encode s = Some b ->
  count_line_feeds b = count_line_feed_chars s.
Proof.
  unfold count_line_feeds, count_line_feed_chars.
  induction s as [|c s IH]; intros b H.
  - injection H as <-. reflexivity.
  - cbn [utf8_encode] in H.
    destruct (utf8_encode_char c) as [bc|] eqn:Ec; [|discriminate].
    destruct (utf8_encode s) as [bs|] eqn:Es; [|discriminate].
    injection H as <-. rewrite filter_app, length_app.
    rewrite (utf8_encode_char_line_feeds c bc Ec), (IH bs eq_refl).
    cbn [filter]. rewrite (N.eqb_sym 10 c). destruct (c =? 10)%N; reflexivity.
Qed.

(** X17: The line written for a record holds one newline byte for every line
    feed character of the rendered message, and the terminating one: a
    message without line feeds is exactly one line on the wire, and line
    feeds inside a message are not escaped. *)
Theorem line_holds_message_line_feeds_and_one (w : World) (record : LogRecord)
    (message : pystr) (d : bytes) :
  formatter w record = Ok message ->
  rendered w record = Ok d ->
  count_line_feeds (List.concat (line_calls d))
  = S (count_line_feed_chars message)
  /\ (count_line_feed_chars message = 0%nat -> ~ In line_feed d).
Proof.
  intros Hf Hd. unfold rendered in Hd. rewrite Hf in Hd.
  unfold encode_utf8 in Hd.
  destruct (utf8_encode message) as [b|] eqn:E; [|discriminate].
  injection Hd as <-.
  pose proof (utf8_encode_line_feeds message b E) as Hn.
  split.
  - unfold line_calls. cbn [List.concat]. rewrite app_nil_r.
    unfold count_line_feeds in *. rewrite filter_app, length_app, Hn.
    cbn. lia.
  - intros Hz Hin. rewrite Hz in Hn. unfold count_line_feeds in Hn.
    assert (Hin' : In line_feed (filter (Byte.eqb line_feed) b))
      by (apply filter_In; split; [exact Hin | apply byte_dec_lb; reflexivity]).
    destruct (filter (Byte.eqb line_feed) b); [exact Hin' | discriminate Hn].
Qed.

Lemma line_holds_message_line_feeds_and_one_witness :
  count_line_feeds
    (List.concat (line_calls (bytes_of_string "Hello there, wally!")))
  = 1%nat.
Proof.
  apply (line_holds_message_line_feeds_and_one (local_handler 10)
           (record_at INFO "Hello there, wally!")
           (pystr_of_string "Hello there, wally!")
           (bytes_of_string "Hello there, wally!")).
  - reflexivity.
  - reflexivity.
Defined.

(** ** The constructor, all cases *)

(** X18: The constructor succeeds exactly when the host is an IPv4 or IPv6
    literal, or no reactor is passed and the host fails to parse as one; it
    then returns a handler with the given maximum, an empty buffer, no
    producer, the chosen reactor as clock and exactly one connection attempt
    under way. *)
Theorem init_succeeds_exactly_when
    (ip_address : string -> result IPAddress) (h : string) (p m : Z)
    (r : option Reactor) :
  ((exists w, __init__ ip_address h p m r = Ok w)
   <-> (ip_address h = Ok IPv4Address \/ ip_address h = Ok IPv6Address
        \/ ((ip_address h = Ok OtherAddress \/ ip_address h = Raise ValueError)
            /\ r = None)))
  /\ (forall w, __init__ ip_address h p m r = Ok w ->
      maximum_buffer w = m /\ _buffer w = [] /\ _producer w = None
      /\ clock (_service w) = chosen_reactor r
      /\ pending_attempts w = 1%nat
      /\ _connection_waiter w = Some Waiting
      /\ transports w = [] /\ stderr w = []
      /\ endpoint (_service w)
         = match ip_address h with
           | Ok IPv4Address => TCP4ClientEndpoint (chosen_reactor r) h p
           | Ok IPv6Address => TCP6ClientEndpoint (chosen_reactor r) h p
           | _ => HostnameEndpoint GlobalReactor h p
           end).
Proof.
  split.
  - unfold __init__. split.
    + intros [w H].
      destruct (ip_address h) as [[| |]|[]]; try discriminate H;
        try (left; reflexivity); try (right; left; reflexivity);
        destruct r; try discriminate H;
        right; right; split; try reflexivity; [left | right]; reflexivity.
    + intros [H | [H | [[H | H] ->]]]; rewrite H; eexists; reflexivity.
  - unfold __init__, pending_attempts, chosen_reactor. intros w.
    destruct (ip_address h) as [[| |]|[]]; try discriminate;
      try (destruct r; try discriminate);
      cbn; intros E; injection E as <-; cbn; repeat split; reflexivity.
Qed.
